(** * Cardano clustered wallets: address-cluster discovery

    A shallow embedding of the TypeScript sources

      - [utils.ts]                          ([getPaymentCredential], [getStakingCredential])
      - [BlockfrostBlockchainDataSource.ts] (the Blockfrost adapter)
      - [IBlockchainDataSource.ts]          (the data-source interface)
      - [ClusteredWallet.ts]                ([ClusteredWallet.discover] and its helpers)

    Conventions of the embedding:
      - a [Promise<T>] that may reject, and a call that may throw, is a
        [result T];
      - a JavaScript [Set<string>] is the list of its elements in
        insertion order (the order in which [for ... of] visits them);
      - [bigint] is [Z]; the [number]s used as output indices are [Z];
      - a [Map<AssetId, bigint>] is a [gmap string Z];
      - the [while] loop of [discover] takes a fuel argument, and running
        out of it is the distinguished outcome [OutOfFuel];
      - the optional progress monitor is an [option] of a stateful
        observer whose [update] may throw. *)

From Stdlib Require Import ZArith Lia DecimalString.
From stdpp Require Import base list strings gmap fin_maps relations pretty.

Local Open Scope string_scope.
Local Open Scope Z_scope.
Local Open Scope list_scope.

(** ** Exceptions and fallible calls *)

Inductive exn : Type :=
| InvalidAddress (text : string)   (* thrown by [Cardano.Address.fromBech32] *)
| TypeError (what : string)        (* reading a property of [undefined] *)
| SyntaxError (what : string)      (* thrown by [BigInt] / [Cardano.AssetId] *)
| ProviderError (msg : string)     (* a rejected provider promise *)
| MonitorError (msg : string).     (* thrown by a progress monitor *)

Inductive result (A : Type) : Type :=
| Ok (a : A)
| Err (e : exn).
Arguments Ok {A} a.
Arguments Err {A} e.

Definition result_bind {A B} (r : result A) (k : A -> result B) : result B :=
  match r with
  | Ok a => k a
  | Err e => Err e
  end.

Notation "'try' x <- r ; k" := (result_bind r (fun x => k))
  (at level 10, x name, r at level 100, k at level 200).

(** [array.map(f)] where [f] may throw: the first exception aborts the map. *)
Fixpoint map_result {A B} (f : A -> result B) (l : list A) : result (list B) :=
  match l with
  | [] => Ok []
  | x :: l' =>
      try y <- f x;
      try ys <- map_result f l';
      Ok (y :: ys)
  end.

(** ** JavaScript [Set<string>] in insertion order *)

Module JsSet.
Abbreviation t := (list string).

Definition empty : t := [].

Definition has (x : string) (s : t) : bool := bool_decide (x ∈ s).

(** [set.add(x)]: a new element goes last, a present one keeps its place. *)
Definition add (x : string) (s : t) : t :=
  if has x s then s else s ++ [x].

(** [set.delete(x)] *)
Definition delete (x : string) (s : t) : t :=
  filter (fun y => y ≠ x) s.

Definition size (s : t) : nat := length s.

(** [[...new Set(array)]] *)
Definition of_array (l : list string) : t :=
  fold_left (fun s x => add x s) l empty.
End JsSet.

Arguments JsSet.has : simpl never.
Arguments JsSet.add : simpl never.
Arguments JsSet.delete : simpl never.

(** ** The part of [@cardano-sdk/core] and [@scure/base] the sources use *)

Module Cardano.
Inductive CredentialType := KeyHash | ScriptHash.

Record Credential := { type : CredentialType; hash : string }.

Record EnterpriseAddress := { enterprisePaymentCredential : Credential }.

Record BaseAddress := {
  basePaymentCredential : Credential;
  baseStakeCredential : Credential
}.

Record PointerAddress := { pointerPaymentCredential : Credential }.

(** A decoded address, seen through the views of the library: [asEnterprise]
    and [asBase], the two the sources ask for, and [asPointer], which they
    never ask for. *)
Record Address := {
  asEnterprise : option EnterpriseAddress;
  asBase : option BaseAddress;
  asPointer : option PointerAddress
}.

(** [Cardano.Value] *)
Record Value := { coins : Z; assets : gmap string Z }.

Definition quantityOf (asset : string) (v : Value) : Z :=
  default 0 (assets v !! asset).
End Cardano.

(** The library functions are parameters of the development. *)
Record CardanoSdk := {
  (** [Cardano.Address.fromBech32]; [None] when it throws. *)
  fromBech32 : string -> option Cardano.Address;
  (** [bech32.encode(prefix, bech32.toWords(Buffer.from(hash, 'hex')), limit)] *)
  bech32_encode : string -> string -> Z -> string;
  (** [Cardano.RewardAddress.fromCredentials(networkId, c).toAddress().toBech32()] *)
  rewardAddressToBech32 : Z -> Cardano.Credential -> string;
  (** [BigInt(text)] *)
  BigInt : string -> result Z;
  (** [Cardano.AssetId(text)] *)
  AssetId : string -> result string
}.

(** Modelled from the spec: [coalesceValueQuantities] of [@cardano-sdk/core]
    is not part of the repository. The spec describes it as folding a sequence
    of (coin amount, asset-quantity map) pairs by addition of the coins and
    pointwise addition over the mapping keyed by asset identifier. *)
Definition addValue (acc v : Cardano.Value) : Cardano.Value :=
  {| Cardano.coins := Cardano.coins acc + Cardano.coins v;
     Cardano.assets :=
       union_with (fun x y => Some (x + y)) (Cardano.assets acc) (Cardano.assets v) |}.

Definition zeroValue : Cardano.Value :=
  {| Cardano.coins := 0; Cardano.assets := ∅ |}.

Definition coalesceValueQuantities (quantities : list Cardano.Value) : Cardano.Value :=
  fold_left addValue quantities zeroValue.

(** ** Domain records ([Utxo.ts], [AddressInfo.ts], [RewardAccountInfo.ts]) *)

Module Utxo.
Record t := {
  txHash : string;
  index : Z;
  value : Cardano.Value;
  address : string
}.

(** The identity of an output. *)
Definition key (u : t) : string * Z := (txHash u, index u).
End Utxo.

Module Transaction.
Record t := { txHash : string; index : Z }.
End Transaction.

Module RewardAccountInfo.
Record t := {
  stakingCredential : string;
  rewards : Z;
  stakedAmount : Z;
  poolId : option string
}.
End RewardAccountInfo.

Module AddressInfo.
Record t := {
  address : string;
  paymentCredential : string;
  stakingCredential : option string;
  balance : Cardano.Value;
  utxos : list Utxo.t
}.
End AddressInfo.

(** ** [utils.ts] *)

Section Utils.
Context (sdk : CardanoSdk).

Definition MAX_BECH32_LENGTH_LIMIT : Z := 1023.
Definition VERIFICATION_KEY_HASH_PREFIX : string := "addr_vkh".

(** [Cardano.Address.fromBech32(address)], throwing on undecodable text. *)
Definition decodeAddress (address : string) : result Cardano.Address :=
  match fromBech32 sdk address with
  | Some addr => Ok addr
  | None => Err (InvalidAddress address)
  end.

Definition getPaymentCredential (address : string) : result string :=
  try addr <- decodeAddress address;
  let paymentCredential :=
    Cardano.enterprisePaymentCredential <$> Cardano.asEnterprise addr in
  let paymentCredential :=
    match Cardano.asBase addr with
    | Some base => Some (Cardano.basePaymentCredential base)
    | None => paymentCredential
    end in
  match paymentCredential with
  | None => Err (TypeError "paymentCredential.hash")
  | Some credential =>
      Ok (bech32_encode sdk VERIFICATION_KEY_HASH_PREFIX
            (Cardano.hash credential) MAX_BECH32_LENGTH_LIMIT)
  end.

Definition getStakingCredential (address : string) (networkId : Z)
  : result (option string) :=
  try addr <- decodeAddress address;
  let credential := Cardano.baseStakeCredential <$> Cardano.asBase addr in
  match credential with
  | None => Ok None
  | Some credential => Ok (Some (rewardAddressToBech32 sdk networkId credential))
  end.
End Utils.

(** ** [IBlockchainDataSource.ts] *)

Module IBlockchainDataSource.
Record t := {
  getRewardAccounts : string -> result (list string);
  getRewardAccountInfo : string -> result (option RewardAccountInfo.t);
  getAddresses : string -> result (list string);
  getUtxos : string -> result (list Utxo.t);
  getTransactions : string -> result (list Transaction.t);
  getNetworkId : Z
}.
End IBlockchainDataSource.

(** ** [BlockfrostBlockchainDataSource.ts] *)

(** The responses of [@blockfrost/blockfrost-js] the adapter reads. *)
Module Blockfrost.
Record AmountEntry := { unit : string; quantity : string }.

Record AddressUtxo := {
  address : string;
  tx_hash : string;
  output_index : Z;
  amount : list AmountEntry
}.

Record Account := {
  withdrawable_amount : string;
  controlled_amount : string;
  pool_id : option string
}.

Record AccountAddress := { account_address : string }.

Record AddressTransaction := { tx_hash_of : string; tx_index : Z }.

(** [BlockFrostAPI]: every request is a promise that may reject. *)
Record API := {
  accounts : string -> result Account;
  accountsAddresses : string -> result (list AccountAddress);
  addressesUtxos : string -> result (list AddressUtxo);
  addressesTransactions : string -> result (list AddressTransaction)
}.
End Blockfrost.

Section BlockfrostBlockchainDataSource.
Context (sdk : CardanoSdk).
Context (_api : Blockfrost.API) (isTestnet : bool).

Definition _networkId : Z := if isTestnet then 0 else 1.

(** [new Map(entries)]: a later entry for the same key replaces an earlier one. *)
Definition new_Map (entries : list (string * Z)) : gmap string Z :=
  fold_left (fun m e => <[e.1 := e.2]> m) entries ∅.

(** The callback of [result.map] in [getUtxos]. *)
Definition toUtxo (utxo : Blockfrost.AddressUtxo) : result Utxo.t :=
  try coins <-
    match List.find (fun entry => bool_decide (Blockfrost.unit entry = "lovelace"))
                    (Blockfrost.amount utxo) with
    | Some entry => BigInt sdk (Blockfrost.quantity entry)
    | None => Err (TypeError "find(...).quantity")
    end;
  try assets <-
    map_result
      (fun entry =>
         try id <- AssetId sdk (Blockfrost.unit entry);
         try q <- BigInt sdk (Blockfrost.quantity entry);
         Ok (id, q))
      (List.filter (fun entry => bool_decide (Blockfrost.unit entry ≠ "lovelace"))
                   (Blockfrost.amount utxo));
  Ok {| Utxo.address := Blockfrost.address utxo;
        Utxo.txHash := Blockfrost.tx_hash utxo;
        Utxo.index := Blockfrost.output_index utxo;
        Utxo.value := {| Cardano.coins := coins; Cardano.assets := new_Map assets |} |}.

Definition Blockfrost_getUtxos (address : string) : result (list Utxo.t) :=
  try vkh <- getPaymentCredential sdk address;
  try result <- Blockfrost.addressesUtxos _api vkh;
  map_result toUtxo result.

Definition Blockfrost_getRewardAccounts (address : string) : result (list string) :=
  try utxos <- Blockfrost_getUtxos address;
  try rewardAccounts <-
    map_result (fun utxo => getStakingCredential sdk (Utxo.address utxo) _networkId) utxos;
  let rewardAccounts := omap id rewardAccounts in
  Ok (JsSet.of_array rewardAccounts).

Definition Blockfrost_getRewardAccountInfo (rewardAccount : string)
  : result (option RewardAccountInfo.t) :=
  match Blockfrost.accounts _api rewardAccount with
  | Err e => Ok None
  | Ok account =>
      try rewards <- BigInt sdk (Blockfrost.withdrawable_amount account);
      try stakedAmount <- BigInt sdk (Blockfrost.controlled_amount account);
      Ok (Some {| RewardAccountInfo.stakingCredential := rewardAccount;
                  RewardAccountInfo.rewards := rewards;
                  RewardAccountInfo.stakedAmount := stakedAmount;
                  RewardAccountInfo.poolId := Blockfrost.pool_id account |})
  end.

Definition Blockfrost_getAddresses (stakeCredential : string) : result (list string) :=
  match Blockfrost.accountsAddresses _api stakeCredential with
  | Err e => Ok []
  | Ok addresses => Ok (map Blockfrost.account_address addresses)
  end.

Definition Blockfrost_getTransactions (address : string) : result (list Transaction.t) :=
  try txs <- Blockfrost.addressesTransactions _api address;
  Ok (map (fun tx => {| Transaction.txHash := Blockfrost.tx_hash_of tx;
                        Transaction.index := Blockfrost.tx_index tx |}) txs).

Definition BlockfrostBlockchainDataSource : IBlockchainDataSource.t :=
  {| IBlockchainDataSource.getRewardAccounts := Blockfrost_getRewardAccounts;
     IBlockchainDataSource.getRewardAccountInfo := Blockfrost_getRewardAccountInfo;
     IBlockchainDataSource.getAddresses := Blockfrost_getAddresses;
     IBlockchainDataSource.getUtxos := Blockfrost_getUtxos;
     IBlockchainDataSource.getTransactions := Blockfrost_getTransactions;
     IBlockchainDataSource.getNetworkId := _networkId |}.
End BlockfrostBlockchainDataSource.

(** ** [ClusteredWallet.ts] *)

(** How a run of [discover] ends. *)
Inductive outcome (A : Type) : Type :=
| Done (a : A)            (* the promise resolves *)
| Throw (e : exn)         (* the promise rejects *)
| UndefinedAddress        (* [_popFromSet] fell off its end: [address] is [undefined] *)
| OutOfFuel.              (* the [while] loop was cut short by the model *)
Arguments Done {A} a.
Arguments Throw {A} e.
Arguments UndefinedAddress {A}.
Arguments OutOfFuel {A}.

(** A progress monitor: [update] is handed the message, may change the
    monitor's own state, and may throw. *)
Record ProgressMonitor (St : Type) := {
  update : string -> St -> result St
}.
Arguments update {St} p message s.

(** Computations of [discover]: they thread the monitor's state. *)
Definition M (St A : Type) : Type := St -> outcome (A * St).

Definition ret {St A} (a : A) : M St A := fun s => Done (a, s).

Definition bind {St A B} (m : M St A) (k : A -> M St B) : M St B :=
  fun s =>
    match m s with
    | Done (a, s') => k a s'
    | Throw e => Throw e
    | UndefinedAddress => UndefinedAddress
    | OutOfFuel => OutOfFuel
    end.

(** [await promise] *)
Definition await {St A} (r : result A) : M St A :=
  fun s =>
    match r with
    | Ok a => Done (a, s)
    | Err e => Throw e
    end.

(** [progressMonitor?.update(message)] *)
Definition notify {St} (progressMonitor : option (ProgressMonitor St)) (message : string)
  : M St unit :=
  fun s =>
    match progressMonitor with
    | None => Done (tt, s)
    | Some monitor =>
        match update monitor message s with
        | Ok s' => Done (tt, s')
        | Err e => Throw e
        end
    end.

Notation "'let*' x := m 'in' k" := (bind m (fun x => k))
  (at level 10, x name, m at level 100, k at level 200).
Notation "m ;; k" := (bind m (fun _ => k))
  (at level 100, k at level 200, right associativity).

(** [array.findIndex(p)]: the index of the first match, [-1] when there is none. *)
Fixpoint findIndex_from {A} (p : A -> bool) (i : Z) (l : list A) : Z :=
  match l with
  | [] => -1
  | x :: l' => if p x then i else findIndex_from p (i + 1) l'
  end.

Definition findIndex {A} (p : A -> bool) (l : list A) : Z := findIndex_from p 0 l.

(** [array.filter((value, index, self) => ...)] *)
Fixpoint filter_from {A} (p : A -> Z -> bool) (i : Z) (l : list A) : list A :=
  match l with
  | [] => []
  | x :: l' => if p x i then x :: filter_from p (i + 1) l' else filter_from p (i + 1) l'
  end.

Definition array_filter {A} (p : A -> Z -> list A -> bool) (self : list A) : list A :=
  filter_from (fun value index => p value index self) 0 self.

Module ClusteredWallet.
Record t := {
  _utxos : list Utxo.t;
  _clusterAddresses : list AddressInfo.t;
  _clusterRewardAccounts : list RewardAccountInfo.t;
  _balance : Cardano.Value;
  _rewards : Z
}.

Definition getRewardAccounts (w : t) := _clusterRewardAccounts w.
Definition getRewards (w : t) := _rewards w.
Definition getBalance (w : t) := _balance w.
Definition getUTXOs (w : t) := _utxos w.
Definition getAddresses (w : t) := _clusterAddresses w.

(** [_popFromSet]: deletes and returns the first element; on an empty set
    the loop body never runs and the function returns [undefined]. *)
Definition _popFromSet (set : JsSet.t) : option string * JsSet.t :=
  match set with
  | value :: _ => (Some value, JsSet.delete value set)
  | [] => (None, set)
  end.

Definition _insertRangeInSet (array : list string) (set : JsSet.t) : JsSet.t :=
  fold_left (fun set value => JsSet.add value set) array set.

(** The three sets the frontier loop works on. *)
Record Sets := {
  clusterAddresses : JsSet.t;
  clusterRewardAccounts : JsSet.t;
  addressToExplore : JsSet.t
}.

Section Discover.
Context {St : Type}.
Context (sdk : CardanoSdk).
Context (blockchainExplorer : IBlockchainDataSource.t).
Context (progressMonitor : option (ProgressMonitor St)).

(** [for (const rewardAccount of rewardAccounts) { ... }] *)
Fixpoint exploreRewardAccounts (rewardAccounts : list string) (st : Sets)
  : M St Sets :=
  match rewardAccounts with
  | [] => ret st
  | rewardAccount :: rest =>
      if JsSet.has rewardAccount (clusterRewardAccounts st)
      then exploreRewardAccounts rest st
      else
        let visited := JsSet.add rewardAccount (clusterRewardAccounts st) in
        notify progressMonitor
          ("Searching " +:+ rewardAccount +:+ " for new addresses...") ;;
        let* addresses := await (IBlockchainDataSource.getAddresses blockchainExplorer rewardAccount) in
        let startingAddressCount := JsSet.size (clusterAddresses st) in
        let toExplore := _insertRangeInSet addresses (addressToExplore st) in
        let cluster := _insertRangeInSet addresses (clusterAddresses st) in
        let endingAddressCount := JsSet.size cluster in
        notify progressMonitor
          ("Found "
             +:+ pretty (Z.of_nat endingAddressCount - Z.of_nat startingAddressCount)
             +:+ " new addresses.") ;;
        exploreRewardAccounts rest
          {| clusterAddresses := cluster;
             clusterRewardAccounts := visited;
             addressToExplore := toExplore |}
  end.

(** [while (isDiscovering) { ... }]; entered with [isDiscovering] true. *)
Fixpoint frontierLoop (fuel : nat) (st : Sets) : M St Sets :=
  match fuel with
  | O => fun _ => OutOfFuel
  | S fuel =>
      if (JsSet.size (addressToExplore st) =? 0)%nat then ret st
      else
        match _popFromSet (addressToExplore st) with
        | (None, _) => fun _ => UndefinedAddress
        | (Some address, toExplore) =>
            let st := {| clusterAddresses := clusterAddresses st;
                         clusterRewardAccounts := clusterRewardAccounts st;
                         addressToExplore := toExplore |} in
            if JsSet.has address (clusterAddresses st)
            then frontierLoop fuel st
            else
              notify progressMonitor
                ("Getting reward accounts for " +:+ address +:+ ".") ;;
              let* rewardAccounts :=
                await (IBlockchainDataSource.getRewardAccounts blockchainExplorer address) in
              let* st := exploreRewardAccounts rewardAccounts st in
              let isDiscovering := (0 <? JsSet.size (addressToExplore st))%nat in
              if isDiscovering then frontierLoop fuel st else ret st
        end
  end.

(** [for (const clusterAddress of clusterAddresses) { ... }]: the
    accumulators are [clusterUtxos] and [clusterAddressInfo]. *)
Fixpoint collectAddressInfo (addresses : list string)
    (clusterUtxos : list Utxo.t) (clusterAddressInfo : list AddressInfo.t)
  : M St (list Utxo.t * list AddressInfo.t) :=
  match addresses with
  | [] => ret (clusterUtxos, clusterAddressInfo)
  | clusterAddress :: rest =>
      let* utxos := await (IBlockchainDataSource.getUtxos blockchainExplorer clusterAddress) in
      let clusterUtxos := clusterUtxos ++ utxos in
      let balance := coalesceValueQuantities (map Utxo.value utxos) in
      let* paymentCredential := await (getPaymentCredential sdk clusterAddress) in
      let* stakingCredential :=
        await (getStakingCredential sdk clusterAddress
                 (IBlockchainDataSource.getNetworkId blockchainExplorer)) in
      collectAddressInfo rest clusterUtxos
        (clusterAddressInfo ++
           [{| AddressInfo.address := clusterAddress;
               AddressInfo.balance := balance;
               AddressInfo.utxos := utxos;
               AddressInfo.paymentCredential := paymentCredential;
               AddressInfo.stakingCredential := stakingCredential |}])
  end.

(** [for (const rewardAccount of clusterRewardAccounts) { ... }] *)
Fixpoint collectRewardAccountInfo (rewardAccounts : list string)
    (clusterRewardAccountInfo : list RewardAccountInfo.t)
  : M St (list RewardAccountInfo.t) :=
  match rewardAccounts with
  | [] => ret clusterRewardAccountInfo
  | rewardAccount :: rest =>
      let* rewardAccountInfo :=
        await (IBlockchainDataSource.getRewardAccountInfo blockchainExplorer rewardAccount) in
      match rewardAccountInfo with
      | Some info =>
          collectRewardAccountInfo rest (clusterRewardAccountInfo ++ [info])
      | None => collectRewardAccountInfo rest clusterRewardAccountInfo
      end
  end.

(** The predicate of the final [clusterUtxos.filter]. *)
Definition firstWithKey (value : Utxo.t) (index : Z) (self : list Utxo.t) : bool :=
  index =? findIndex
             (fun t => bool_decide (Utxo.txHash t = Utxo.txHash value)
                       && (Utxo.index t =? Utxo.index value))
             self.

Definition discover (fuel : nat) (seedAddress : string) : M St t :=
  let clusterAddresses0 := JsSet.empty in
  let clusterRewardAccounts0 := JsSet.empty in
  let clusterUtxos := [] in
  let addressToExplore0 := JsSet.empty in
  notify progressMonitor
    ("Starting cluster discovery from seed " +:+ seedAddress +:+ ".") ;;
  let addressToExplore0 := JsSet.add seedAddress addressToExplore0 in
  let* st := frontierLoop fuel
               {| clusterAddresses := clusterAddresses0;
                  clusterRewardAccounts := clusterRewardAccounts0;
                  addressToExplore := addressToExplore0 |} in
  let* collected := collectAddressInfo (clusterAddresses st) clusterUtxos [] in
  let clusterUtxos := collected.1 in
  let clusterAddressInfo := collected.2 in
  let* clusterRewardAccountInfo :=
    collectRewardAccountInfo (clusterRewardAccounts st) [] in
  let utxos := array_filter firstWithKey clusterUtxos in
  let wallet :=
    {| _utxos := utxos;
       _balance := coalesceValueQuantities (map Utxo.value utxos);
       _rewards :=
         fold_left (fun acc rewardAccountInfo =>
                      acc + RewardAccountInfo.rewards rewardAccountInfo)
                   clusterRewardAccountInfo 0;
       _clusterAddresses := clusterAddressInfo;
       _clusterRewardAccounts := clusterRewardAccountInfo |} in
  notify progressMonitor "Cluster discovery complete." ;;
  ret wallet.
End Discover.
End ClusteredWallet.

(** * Vocabulary of the properties *)

(** A computation that runs to its end or throws: it neither exhausts
    the fuel nor sees an undefined address. *)
Definition settles {St A} (m : M St A) : Prop :=
  forall s, (exists r, m s = Done r) \/ (exists e, m s = Throw e).

(** How a run ended, without the monitor's state. *)
Definition verdict {A St} (o : outcome (A * St)) : outcome A :=
  match o with
  | Done (a, _) => Done a
  | Throw e => Throw e
  | UndefinedAddress => UndefinedAddress
  | OutOfFuel => OutOfFuel
  end.

(** A monitor whose [update] returns normally on every message. *)
Definition neverThrows {St} (monitor : ProgressMonitor St) : Prop :=
  forall message s, exists s', update monitor message s = Ok s'.

(** Two computations that end the same way from any pair of monitor states. *)
Definition sameVerdict {A St1 St2} (m1 : M St1 A) (m2 : M St2 A) : Prop :=
  forall s1 s2, verdict (m1 s1) = verdict (m2 s2).

(** [b] is one shared-credential step away from [a]: the explorer names a
    reward account for [a] and lists [b] among that account's addresses. *)
Definition link (ds : IBlockchainDataSource.t) (a b : string) : Prop :=
  exists ras r l,
    IBlockchainDataSource.getRewardAccounts ds a = Ok ras /\ r ∈ ras /\
    IBlockchainDataSource.getAddresses ds r = Ok l /\ b ∈ l.

(** The reflexive-transitive closure of [link]. *)
Definition reachable (ds : IBlockchainDataSource.t) : string -> string -> Prop :=
  rtc (link ds).

(** The reward-account info that ends up in the wallet, if any. *)
Definition retained (ds : IBlockchainDataSource.t) (rewardAccount : string)
  : option RewardAccountInfo.t :=
  match IBlockchainDataSource.getRewardAccountInfo ds rewardAccount with
  | Ok (Some info) => Some info
  | _ => None
  end.

Fixpoint Zsum (l : list Z) : Z :=
  match l with
  | [] => 0
  | x :: l' => x + Zsum l'
  end.

(** The frontier never grows by more than the explorer hands back. *)
Definition answerSize (ds : IBlockchainDataSource.t) (ras : list string) : nat :=
  sum_list (map (fun r => match IBlockchainDataSource.getAddresses ds r with
                          | Ok l => length l
                          | Err _ => 0%nat
                          end) ras).

(** Once every frontier address is already a cluster member the loop only
    drains the frontier: nothing is asked of the explorer any more. *)
Definition drained (st : ClusteredWallet.Sets) : ClusteredWallet.Sets :=
  {| ClusteredWallet.clusterAddresses := ClusteredWallet.clusterAddresses st;
     ClusteredWallet.clusterRewardAccounts := ClusteredWallet.clusterRewardAccounts st;
     ClusteredWallet.addressToExplore := [] |}.

Definition noSets : ClusteredWallet.Sets :=
  {| ClusteredWallet.clusterAddresses := JsSet.empty;
     ClusteredWallet.clusterRewardAccounts := JsSet.empty;
     ClusteredWallet.addressToExplore := JsSet.empty |}.

(** The sets on entry to the [while] loop. *)
Definition seeded (seedAddress : string) : ClusteredWallet.Sets :=
  {| ClusteredWallet.clusterAddresses := JsSet.empty;
     ClusteredWallet.clusterRewardAccounts := JsSet.empty;
     ClusteredWallet.addressToExplore := JsSet.add seedAddress JsSet.empty |}.

(** A bound on the iterations of the loop, read off the explorer's answers
    for the seed. *)
Definition fuelBound (ds : IBlockchainDataSource.t) (seedAddress : string) : nat :=
  match IBlockchainDataSource.getRewardAccounts ds seedAddress with
  | Ok ras => 2 + answerSize ds ras
  | Err _ => 1
  end.

(** The callback handed to [findIndex] by the final filter. *)
Definition sameKey (value t : Utxo.t) : bool :=
  bool_decide (Utxo.txHash t = Utxo.txHash value) && (Utxo.index t =? Utxo.index value).

(** What [discover] stores in the wallet, given the outcome of its loops. *)
Definition walletOf (clusterUtxos : list Utxo.t)
    (clusterAddressInfo : list AddressInfo.t)
    (clusterRewardAccountInfo : list RewardAccountInfo.t) : ClusteredWallet.t :=
  let utxos := array_filter ClusteredWallet.firstWithKey clusterUtxos in
  {| ClusteredWallet._utxos := utxos;
     ClusteredWallet._balance := coalesceValueQuantities (map Utxo.value utxos);
     ClusteredWallet._rewards :=
       fold_left (fun acc rewardAccountInfo =>
                    acc + RewardAccountInfo.rewards rewardAccountInfo)
                 clusterRewardAccountInfo 0;
     ClusteredWallet._clusterAddresses := clusterAddressInfo;
     ClusteredWallet._clusterRewardAccounts := clusterRewardAccountInfo |}.

(** An [AddressInfo] records what the explorer answered for its address. *)
Definition faithfulInfo (ds : IBlockchainDataSource.t) (info : AddressInfo.t) : Prop :=
  IBlockchainDataSource.getUtxos ds (AddressInfo.address info)
    = Ok (AddressInfo.utxos info)
  /\ AddressInfo.balance info
     = coalesceValueQuantities (map Utxo.value (AddressInfo.utxos info)).

(** The payment part [getPaymentCredential] finds in a decoded address. *)
Definition paymentPart (addr : Cardano.Address) : option Cardano.Credential :=
  match Cardano.asBase addr with
  | Some base => Some (Cardano.basePaymentCredential base)
  | None => Cardano.enterprisePaymentCredential <$> Cardano.asEnterprise addr
  end.

(** The payment part a decoded address carries: base, enterprise and
    pointer addresses have one, a reward address has none. *)
Definition carriedPaymentPart (addr : Cardano.Address) : option Cardano.Credential :=
  match Cardano.asBase addr with
  | Some base => Some (Cardano.basePaymentCredential base)
  | None =>
      match Cardano.asEnterprise addr with
      | Some enterprise => Some (Cardano.enterprisePaymentCredential enterprise)
      | None => Cardano.pointerPaymentCredential <$> Cardano.asPointer addr
      end
  end.

(** The specification's sentence on [resolvePaymentCredential], in its own
    words: an address that decodes and carries a payment part resolves to the
    re-encoded hash of that part; an address that does not decode, or carries
    no payment part, fails. *)
Definition resolvesAsSpecified (sdk : CardanoSdk) (address : string) : Prop :=
  match fromBech32 sdk address with
  | Some addr =>
      match carriedPaymentPart addr with
      | Some credential =>
          getPaymentCredential sdk address
          = Ok (bech32_encode sdk VERIFICATION_KEY_HASH_PREFIX
                  (Cardano.hash credential) MAX_BECH32_LENGTH_LIMIT)
      | None => exists e, getPaymentCredential sdk address = Err e
      end
  | None => exists e, getPaymentCredential sdk address = Err e
  end.

(** * Concrete explorers *)

(** A stand-in for the address codec: text starting with [addr] decodes to a
    base address, text starting with [ent] to an enterprise address, text
    starting with [stake] to a reward address; anything else does not decode. *)
Definition demoDecode (text : string) : option Cardano.Address :=
  let credential tag := {| Cardano.type := Cardano.KeyHash; Cardano.hash := tag +:+ text |} in
  if String.prefix "addr" text then
    Some {| Cardano.asEnterprise := None;
            Cardano.asBase :=
              Some {| Cardano.basePaymentCredential := credential "pay:";
                      Cardano.baseStakeCredential := credential "stk:" |};
            Cardano.asPointer := None |}
  else if String.prefix "ent" text then
    Some {| Cardano.asEnterprise :=
              Some {| Cardano.enterprisePaymentCredential := credential "pay:" |};
            Cardano.asBase := None;
            Cardano.asPointer := None |}
  else if String.prefix "stake" text then
    Some {| Cardano.asEnterprise := None; Cardano.asBase := None;
            Cardano.asPointer := None |}
  else None.

Definition demoSdk : CardanoSdk :=
  {| fromBech32 := demoDecode;
     bech32_encode := fun prefix hash _ => prefix +:+ "1" +:+ hash;
     rewardAddressToBech32 := fun _ credential => "stake1" +:+ Cardano.hash credential;
     BigInt := fun text =>
       match NilZero.int_of_string text with
       | Some i => Ok (Z.of_int i)
       | None => Err (SyntaxError text)
       end;
     AssetId := fun text => Ok text |}.

(** An explorer that answers from tables; what is not in a table is unknown
    to it and resolves to the empty answer. *)
Definition tableSource
    (rewardAccountsFor : list (string * list string))
    (addressesFor : list (string * list string))
    (utxosFor : list (string * list Utxo.t))
    (infoFor : list (string * RewardAccountInfo.t)) : IBlockchainDataSource.t :=
  let answer {A} (table : list (string * list A)) (k : string) : list A :=
    default [] ((list_to_map table : gmap string (list A)) !! k) in
  {| IBlockchainDataSource.getRewardAccounts k := Ok (answer rewardAccountsFor k);
     IBlockchainDataSource.getRewardAccountInfo k :=
       Ok ((list_to_map infoFor : gmap string RewardAccountInfo.t) !! k);
     IBlockchainDataSource.getAddresses k := Ok (answer addressesFor k);
     IBlockchainDataSource.getUtxos k := Ok (answer utxosFor k);
     IBlockchainDataSource.getTransactions _ := Ok [];
     IBlockchainDataSource.getNetworkId := 0 |}.

Definition coinsOnly (txHash : string) (index : Z) (address : string) (coins : Z) : Utxo.t :=
  {| Utxo.txHash := txHash; Utxo.index := index; Utxo.address := address;
     Utxo.value := {| Cardano.coins := coins; Cardano.assets := ∅ |} |}.

(** The scenario of the specification: [S] and [T] share the reward account [K1]. *)
Definition sharedStake : IBlockchainDataSource.t :=
  tableSource
    [("addr_S", ["stake_K1"]); ("addr_T", ["stake_K1"])]
    [("stake_K1", ["addr_S"; "addr_T"])]
    [("addr_S", [coinsOnly "tx1" 0 "addr_S" 600]);
     ("addr_T", [coinsOnly "tx2" 0 "addr_T" 400])]
    [("stake_K1", {| RewardAccountInfo.stakingCredential := "stake_K1";
                     RewardAccountInfo.rewards := 50;
                     RewardAccountInfo.stakedAmount := 1000;
                     RewardAccountInfo.poolId := Some "P1" |})].

(** A chain: [S] and [T] share [K1], [T] and [U] share [K2]. *)
Definition chained : IBlockchainDataSource.t :=
  tableSource
    [("addr_S", ["stake_K1"]); ("addr_T", ["stake_K1"; "stake_K2"]);
     ("addr_U", ["stake_K2"])]
    [("stake_K1", ["addr_S"; "addr_T"]); ("stake_K2", ["addr_T"; "addr_U"])]
    [("addr_S", [coinsOnly "tx1" 0 "addr_S" 600]);
     ("addr_T", [coinsOnly "tx2" 0 "addr_T" 400]);
     ("addr_U", [coinsOnly "tx3" 0 "addr_U" 250])]
    [].

(** A cycle: the reward account of [A] leads to [B], that of [B] back to [A]. *)
Definition cyclic : IBlockchainDataSource.t :=
  tableSource
    [("addr_A", ["stake_KA"]); ("addr_B", ["stake_KB"])]
    [("stake_KA", ["addr_B"]); ("stake_KB", ["addr_A"])]
    [("addr_A", [coinsOnly "tx1" 0 "addr_A" 7]);
     ("addr_B", [coinsOnly "tx2" 0 "addr_B" 9])]
    [].

(** A seed with a payment credential, outputs of its own and no reward account. *)
Definition unstakedSeed : IBlockchainDataSource.t :=
  tableSource [] [] [("ent_S", [coinsOnly "tx1" 0 "ent_S" 600])] [].

(** [K1] was never seen on chain (no info), and lists one address under two
    reward accounts whose answers overlap. *)
Definition overlapping : IBlockchainDataSource.t :=
  tableSource
    [("addr_S", ["stake_K1"; "stake_K2"])]
    [("stake_K1", ["addr_S"; "addr_T"]); ("stake_K2", ["addr_T"; "ent_V"])]
    [("addr_S", [coinsOnly "tx1" 0 "addr_S" 600; coinsOnly "tx1" 1 "addr_S" 5]);
     ("addr_T", [coinsOnly "tx2" 0 "addr_T" 400; coinsOnly "tx1" 0 "addr_S" 600]);
     ("ent_V", [coinsOnly "tx3" 0 "ent_V" 1])]
    [("stake_K2", {| RewardAccountInfo.stakingCredential := "stake_K2";
                     RewardAccountInfo.rewards := 50;
                     RewardAccountInfo.stakedAmount := 1000;
                     RewardAccountInfo.poolId := None |})].

(** Monitors: one that keeps the messages, one that throws on the first. *)
Definition recordingMonitor : ProgressMonitor (list string) :=
  {| update message log := Ok (log ++ [message]) |}.

Definition throwingMonitor : ProgressMonitor unit :=
  {| update message _ := Err (MonitorError message) |}.

Definition noMonitor : option (ProgressMonitor unit) := None.

(** A provider that answers every request with a failure. *)
Definition failingApi : Blockfrost.API :=
  {| Blockfrost.accounts _ := Err (ProviderError "404");
     Blockfrost.accountsAddresses _ := Err (ProviderError "404");
     Blockfrost.addressesUtxos _ := Err (ProviderError "404");
     Blockfrost.addressesTransactions _ := Err (ProviderError "404") |}.

(** * Further code and vocabulary *)

(** [consoleProgressMonitor] of the command-line entry point: [update] hands
    the message to [console.log]. The monitor's state is the console, as the
    list of the lines printed so far. *)
Definition consoleProgressMonitor : ProgressMonitor (list string) :=
  {| update message console := Ok (console ++ [message]) |}.

(** The rewards figure the command-line entry point [run] computes from the
    wallet's reward accounts before printing it. *)
Definition runRewards (wallet : ClusteredWallet.t) : Z :=
  fold_left (fun a b => a + b)
    (map RewardAccountInfo.rewards (ClusteredWallet.getRewardAccounts wallet)) 0.

(** The addresses the explorer lists for a reward account; none when the
    request rejects. *)
Definition addressesListed (ds : IBlockchainDataSource.t) (rewardAccount : string)
  : list string :=
  match IBlockchainDataSource.getAddresses ds rewardAccount with
  | Ok l => l
  | Err _ => []
  end.

(** The reward accounts of an array that one pass of the inner [for] loop
    marks as visited: first occurrences that are not visited yet. *)
Fixpoint freshAccounts (visited : list string) (rewardAccounts : list string)
  : list string :=
  match rewardAccounts with
  | [] => []
  | r :: rest =>
      if JsSet.has r visited then freshAccounts visited rest
      else r :: freshAccounts (JsSet.add r visited) rest
  end.

(** The messages one pass of the inner [for] loop hands to the monitor:
    two per fresh reward account. *)
Fixpoint exploreMessages (ds : IBlockchainDataSource.t) (fresh : list string)
    (cluster : list string) : list string :=
  match fresh with
  | [] => []
  | r :: rest =>
      let cluster' := ClusteredWallet._insertRangeInSet (addressesListed ds r) cluster in
      ("Searching " +:+ r +:+ " for new addresses...")
        :: ("Found "
              +:+ pretty (Z.of_nat (JsSet.size cluster') - Z.of_nat (JsSet.size cluster))
              +:+ " new addresses.")
        :: exploreMessages ds rest cluster'
  end.

(** An [AddressInfo] whose every field is what the explorer and the
    credential resolver answer for its address. *)
Definition resolvedInfo (sdk : CardanoSdk) (ds : IBlockchainDataSource.t)
    (info : AddressInfo.t) : Prop :=
  IBlockchainDataSource.getUtxos ds (AddressInfo.address info)
    = Ok (AddressInfo.utxos info)
  /\ AddressInfo.balance info
     = coalesceValueQuantities (map Utxo.value (AddressInfo.utxos info))
  /\ getPaymentCredential sdk (AddressInfo.address info)
     = Ok (AddressInfo.paymentCredential info)
  /\ getStakingCredential sdk (AddressInfo.address info)
       (IBlockchainDataSource.getNetworkId ds)
     = Ok (AddressInfo.stakingCredential info).

(** The entry of an amount list that [getUtxos] reads the coins from. *)
Definition lovelaceEntry (amount : list Blockfrost.AmountEntry)
  : option Blockfrost.AmountEntry :=
  List.find (fun entry => bool_decide (Blockfrost.unit entry = "lovelace")) amount.

(** What identifies an output, on the provider's side and on ours. *)
Definition providerOutput (utxo : Blockfrost.AddressUtxo) : string * string * Z :=
  (Blockfrost.address utxo, Blockfrost.tx_hash utxo, Blockfrost.output_index utxo).

Definition walletOutput (utxo : Utxo.t) : string * string * Z :=
  (Utxo.address utxo, Utxo.txHash utxo, Utxo.index utxo).

(** ** More concrete explorers *)

(** A codec that decodes the addresses of a book and no other text. *)
Definition bookSdk (book : list (string * Cardano.Address)) : CardanoSdk :=
  {| fromBech32 := fun text => (list_to_map book : gmap string Cardano.Address) !! text;
     bech32_encode := fun prefix hash _ => prefix +:+ "1" +:+ hash;
     rewardAddressToBech32 := fun networkId credential =>
       (if networkId =? 0 then "stake_test1" else "stake1") +:+ Cardano.hash credential;
     BigInt := fun text =>
       match NilZero.int_of_string text with
       | Some i => Ok (Z.of_int i)
       | None => Err (SyntaxError text)
       end;
     AssetId := fun text => Ok text |}.

Definition keyHash (hash : string) : Cardano.Credential :=
  {| Cardano.type := Cardano.KeyHash; Cardano.hash := hash |}.

Definition scriptHash (hash : string) : Cardano.Credential :=
  {| Cardano.type := Cardano.ScriptHash; Cardano.hash := hash |}.

Definition baseAddress (payment stake : Cardano.Credential) : Cardano.Address :=
  {| Cardano.asEnterprise := None;
     Cardano.asBase := Some {| Cardano.basePaymentCredential := payment;
                               Cardano.baseStakeCredential := stake |};
     Cardano.asPointer := None |}.

Definition enterpriseAddress (payment : Cardano.Credential) : Cardano.Address :=
  {| Cardano.asEnterprise := Some {| Cardano.enterprisePaymentCredential := payment |};
     Cardano.asBase := None;
     Cardano.asPointer := None |}.

Definition rewardAddress : Cardano.Address :=
  {| Cardano.asEnterprise := None; Cardano.asBase := None; Cardano.asPointer := None |}.

Definition pointerAddress (payment : Cardano.Credential) : Cardano.Address :=
  {| Cardano.asEnterprise := None;
     Cardano.asBase := None;
     Cardano.asPointer := Some {| Cardano.pointerPaymentCredential := payment |} |}.

(** A pointer address on the key hash [P1], an enterprise address on the
    script hash [P1], and a reward address. *)
Definition pointerBook : CardanoSdk :=
  bookSdk
    [("ptr_P1", pointerAddress (keyHash "P1"));
     ("script_P1", enterpriseAddress (scriptHash "P1"));
     ("stake_S1", rewardAddress)].

(** Two base addresses and two enterprise addresses on the payment hash
    [P1], and a reward address. *)
Definition demoBook : CardanoSdk :=
  bookSdk
    [("addr_P1_S1", baseAddress (keyHash "P1") (keyHash "S1"));
     ("addr_P1_S2", baseAddress (keyHash "P1") (keyHash "S2"));
     ("ent_P1", enterpriseAddress (keyHash "P1"));
     ("script_P1", enterpriseAddress (scriptHash "P1"));
     ("stake_S1", rewardAddress)].

Definition providerUtxo (address tx_hash : string) (output_index : Z)
    (amount : list (string * string)) : Blockfrost.AddressUtxo :=
  {| Blockfrost.address := address;
     Blockfrost.tx_hash := tx_hash;
     Blockfrost.output_index := output_index;
     Blockfrost.amount :=
       map (fun e => {| Blockfrost.unit := e.1; Blockfrost.quantity := e.2 |}) amount |}.

(** A provider that knows the outputs under [P1], the accounts [S1] and [S2]
    and the addresses of [S1]. *)
Definition demoApi : Blockfrost.API :=
  {| Blockfrost.accounts r :=
       if bool_decide (r = "stake_test1S1") then
         Ok {| Blockfrost.withdrawable_amount := "50";
               Blockfrost.controlled_amount := "1000";
               Blockfrost.pool_id := Some "pool1" |}
       else if bool_decide (r = "stake_test1S2") then
         Ok {| Blockfrost.withdrawable_amount := "7";
               Blockfrost.controlled_amount := "400";
               Blockfrost.pool_id := None |}
       else Err (ProviderError "404");
     Blockfrost.accountsAddresses r :=
       if bool_decide (r = "stake_test1S1") then
         Ok [{| Blockfrost.account_address := "addr_P1_S1" |}]
       else Err (ProviderError "404");
     Blockfrost.addressesUtxos vkh :=
       if bool_decide (vkh = "addr_vkh1P1") then
         Ok [providerUtxo "addr_P1_S1" "tx1" 0 [("lovelace", "600"); ("asset1", "3")];
             providerUtxo "addr_P1_S2" "tx2" 0 [("lovelace", "400")];
             providerUtxo "ent_P1" "tx3" 1 [("lovelace", "5")];
             providerUtxo "addr_P1_S1" "tx4" 0 [("asset1", "1"); ("lovelace", "2")]]
       else Err (ProviderError "404");
     Blockfrost.addressesTransactions _ := Ok [] |}.

(** A provider with an output that carries no [lovelace] amount. *)
Definition noLovelaceApi : Blockfrost.API :=
  {| Blockfrost.accounts _ := Err (ProviderError "404");
     Blockfrost.accountsAddresses _ := Err (ProviderError "404");
     Blockfrost.addressesUtxos _ :=
       Ok [providerUtxo "addr_P1_S1" "tx1" 0 [("lovelace", "600")];
           providerUtxo "addr_P1_S1" "tx2" 0 [("asset1", "3")]];
     Blockfrost.addressesTransactions _ := Ok [] |}.

(** An explorer whose reward-account lookup rejects. *)
Definition rejectingSource : IBlockchainDataSource.t :=
  {| IBlockchainDataSource.getRewardAccounts _ := Err (ProviderError "503");
     IBlockchainDataSource.getRewardAccountInfo _ := Ok None;
     IBlockchainDataSource.getAddresses _ := Ok [];
     IBlockchainDataSource.getUtxos _ := Ok [];
     IBlockchainDataSource.getTransactions _ := Ok [];
     IBlockchainDataSource.getNetworkId := 0 |}.

(** An explorer that lists a reward address among the addresses of [K1]. *)
Definition listsRewardAddress : IBlockchainDataSource.t :=
  tableSource
    [("addr_S", ["stake_K1"])]
    [("stake_K1", ["addr_S"; "stake_K1"])]
    [("addr_S", [coinsOnly "tx1" 0 "addr_S" 600])]
    [].

(** * Properties *)

(** ** The computation monad *)

Section MonadFacts.
Context {St : Type}.

Lemma bind_Done {A B} (m : M St A) (k : A -> M St B) s b s2 :
  bind m k s = Done (b, s2) ->
  exists a s1, m s = Done (a, s1) /\ k a s1 = Done (b, s2).
Proof.
  unfold bind. destruct (m s) as [[a s1]| | |]; try discriminate.
  intros H. by exists a, s1.
Qed.

Lemma await_Done {A} (r : result A) (s : St) a s' :
  await r s = Done (a, s') -> r = Ok a /\ s' = s.
Proof. unfold await. destruct r; intros H; by simplify_eq. Qed.

Lemma ret_Done {A} (x : A) (s : St) a s' :
  ret x s = Done (a, s') -> a = x /\ s' = s.
Proof. unfold ret. intros H. by simplify_eq. Qed.

Lemma settles_ret {A} (a : A) : settles (ret a : M St A).
Proof. intros s. left. by eexists. Qed.

Lemma settles_await {A} (r : result A) : settles (await r : M St A).
Proof. intros s. unfold await. destruct r; [left|right]; by eexists. Qed.

Lemma settles_notify mon msg : settles (notify mon msg : M St unit).
Proof.
  intros s. unfold notify. destruct mon as [m|]; [|left; by eexists].
  destruct (update m msg s); [left|right]; by eexists.
Qed.

Lemma settles_bind {A B} (m : M St A) (k : A -> M St B) :
  settles m -> (forall a, settles (k a)) -> settles (bind m k).
Proof.
  intros Hm Hk s. unfold bind.
  destruct (Hm s) as [[[a s1] ->]|[e ->]]; [apply Hk | right; by eexists].
Qed.
End MonadFacts.

Ltac settle :=
  repeat first
    [ apply settles_ret | apply settles_await | apply settles_notify
    | apply settles_bind; [|intros ?] ].

(** ** Sets in insertion order *)

Section JsSetFacts.
Implicit Types (s : list string) (x y : string).

Lemma has_true x s : JsSet.has x s = true <-> x ∈ s.
Proof. unfold JsSet.has. apply bool_decide_eq_true. Qed.

Lemma has_false x s : JsSet.has x s = false <-> x ∉ s.
Proof. unfold JsSet.has. apply bool_decide_eq_false. Qed.

Lemma elem_of_add x y s : y ∈ JsSet.add x s <-> y = x \/ y ∈ s.
Proof.
  unfold JsSet.add. destruct (JsSet.has x s) eqn:E.
  - apply has_true in E. split; [by right | by intros [->|?]].
  - rewrite elem_of_app, list_elem_of_singleton. tauto.
Qed.

Lemma length_add x s : (length (JsSet.add x s) <= S (length s))%nat.
Proof.
  unfold JsSet.add. destruct (JsSet.has x s); [lia|].
  rewrite length_app. simpl. lia.
Qed.

Lemma NoDup_add x s : NoDup s -> NoDup (JsSet.add x s).
Proof.
  intros Hs. unfold JsSet.add. destruct (JsSet.has x s) eqn:E; [done|].
  apply has_false in E. apply NoDup_app. split_and!; [done| |apply NoDup_singleton].
  intros y Hy ->%list_elem_of_singleton. done.
Qed.

Lemma elem_of_delete x y s : y ∈ JsSet.delete x s <-> y ∈ s /\ y ≠ x.
Proof. unfold JsSet.delete. rewrite list_elem_of_filter. tauto. Qed.

Lemma length_delete x s : (length (JsSet.delete x s) <= length s)%nat.
Proof. unfold JsSet.delete. apply length_filter. Qed.

Lemma elem_of_insertRange (array : list string) : forall s y,
  y ∈ ClusteredWallet._insertRangeInSet array s <-> y ∈ array \/ y ∈ s.
Proof.
  unfold ClusteredWallet._insertRangeInSet.
  induction array as [|v array IH]; intros s y; simpl.
  - rewrite elem_of_nil. tauto.
  - rewrite IH, elem_of_add, elem_of_cons. tauto.
Qed.

Lemma length_insertRange (array : list string) : forall s,
  (length (ClusteredWallet._insertRangeInSet array s) <= length s + length array)%nat.
Proof.
  unfold ClusteredWallet._insertRangeInSet.
  induction array as [|v array IH]; intros s; simpl; [lia|].
  specialize (IH (JsSet.add v s)). pose proof (length_add v s). lia.
Qed.

Lemma NoDup_insertRange (array : list string) : forall s,
  NoDup s -> NoDup (ClusteredWallet._insertRangeInSet array s).
Proof.
  unfold ClusteredWallet._insertRangeInSet.
  induction array as [|v array IH]; intros s Hs; simpl; [done|].
  by apply IH, NoDup_add.
Qed.

(** On a non-empty set [_popFromSet] returns a defined string. *)
Lemma popFromSet_defined s :
  JsSet.size s ≠ 0%nat ->
  exists value, ClusteredWallet._popFromSet s = (Some value, JsSet.delete value s)
                /\ value ∈ s.
Proof.
  destruct s as [|v s]; [done|]. intros _. exists v. split; [done|]. apply elem_of_cons; by left.
Qed.

Lemma popFromSet_shrinks s value rest :
  ClusteredWallet._popFromSet s = (Some value, rest) ->
  (length rest < length s)%nat /\ (forall y, y ∈ rest -> y ∈ s).
Proof.
  destruct s as [|v s]; [done|]. intros H. simpl in H. simplify_eq. split.
  - unfold JsSet.delete. simpl. rewrite filter_cons_False by (intros ?; done).
    pose proof (length_filter (fun y => y ≠ value) s). simpl. lia.
  - intros y Hy. by apply elem_of_delete in Hy as [? _].
Qed.
End JsSetFacts.

(** ** The frontier loop *)

Section FrontierFacts.
Context {St : Type}.
Context (ds : IBlockchainDataSource.t).
Context (mon : option (ProgressMonitor St)).

Import ClusteredWallet.

Abbreviation explore := (exploreRewardAccounts ds mon).
Abbreviation loop := (frontierLoop ds mon).
Abbreviation addressesOf := (IBlockchainDataSource.getAddresses ds).

Lemma explore_settles ras : forall st, settles (explore ras st).
Proof.
  induction ras as [|r ras IH]; intros st; simpl; [apply settles_ret|].
  destruct (JsSet.has r _); [apply IH|]. settle. apply IH.
Qed.

(** One pass over the reward accounts of an address: what has been added. *)
Lemma explore_Done ras : forall st s st' s',
  explore ras st s = Done (st', s') ->
  (addressToExplore st = clusterAddresses st ->
   addressToExplore st' = clusterAddresses st')
  /\ (forall a, a ∈ addressToExplore st' -> a ∉ addressToExplore st ->
                a ∈ clusterAddresses st')
  /\ (forall a, a ∈ clusterAddresses st -> a ∈ clusterAddresses st')
  /\ (forall a, a ∈ clusterAddresses st' <->
        a ∈ clusterAddresses st \/
        exists r l, r ∈ ras /\ (r ∉ clusterRewardAccounts st) /\
                    addressesOf r = Ok l /\ a ∈ l)
  /\ (forall r, r ∈ clusterRewardAccounts st' <->
        r ∈ clusterRewardAccounts st \/ r ∈ ras)
  /\ (forall r, r ∈ ras -> r ∉ clusterRewardAccounts st ->
        exists l, addressesOf r = Ok l).
Proof.
  induction ras as [|r0 ras IH]; intros st s st' s' H; simpl in H.
  - apply ret_Done in H as [-> ->]. split_and!; try done.
    + intros a. split; [by left|]. intros [?|(r&l&Hr&_)]; [done|]. by apply elem_of_nil in Hr.
    + intros r. rewrite elem_of_nil. tauto.
    + intros r Hr. by apply elem_of_nil in Hr.
  - destruct (JsSet.has r0 (clusterRewardAccounts st)) eqn:Hhas.
    + apply has_true in Hhas.
      destruct (IH _ _ _ _ H) as (I1 & I2 & I3 & I4 & I5 & I6). split_and!; try done.
      * intros a. rewrite I4. split; intros [?|(r&l&Hr&Hn&Hl&Ha)]; try by left.
        -- right. exists r, l. rewrite elem_of_cons. tauto.
        -- right. exists r, l. apply elem_of_cons in Hr as [->|Hr]; [done|tauto].
      * intros r. rewrite I5, elem_of_cons. split; [tauto|].
        intros [?|[->|?]]; tauto.
      * intros r Hr Hn. apply elem_of_cons in Hr as [->|Hr]; [done|]. by apply I6.
    + apply has_false in Hhas.
      apply bind_Done in H as ([] & s1 & _ & H).
      apply bind_Done in H as (l0 & s2 & Hl0 & H).
      apply await_Done in Hl0 as [Hl0 ->].
      apply bind_Done in H as ([] & s3 & _ & H).
      destruct (IH _ _ _ _ H) as (I1 & I2 & I3 & I4 & I5 & I6).
      simpl in I1, I2, I3, I4, I5, I6. split_and!.
      * intros E. apply I1. by rewrite E.
      * intros a Ha Hn. destruct (decide (a ∈ _insertRangeInSet l0 (addressToExplore st)))
          as [Hin|Hout]; [|by apply I2].
        apply elem_of_insertRange in Hin as [Hin|?]; [|done].
        apply I3, elem_of_insertRange. by left.
      * intros a Ha. apply I3, elem_of_insertRange. by right.
      * intros a. rewrite I4, elem_of_insertRange. split.
        -- intros [[Ha|Ha]|(r&l&Hr&Hn&Hl&Ha)]; [|by left|].
           ++ right. exists r0, l0. rewrite elem_of_cons. tauto.
           ++ right. exists r, l. rewrite elem_of_add in Hn. rewrite elem_of_cons. tauto.
        -- intros [Ha|(r&l&Hr&Hn&Hl&Ha)]; [tauto|].
           destruct (decide (r = r0)) as [->|Hne].
           ++ left. left. congruence.
           ++ right. exists r, l. apply elem_of_cons in Hr as [?|Hr]; [done|].
              rewrite elem_of_add. tauto.
      * intros r. rewrite I5, elem_of_add, elem_of_cons. tauto.
      * intros r Hr Hn. destruct (decide (r = r0)) as [->|Hne]; [by eexists|].
        apply elem_of_cons in Hr as [?|Hr]; [done|]. apply I6; [done|].
        rewrite elem_of_add. tauto.
Qed.

Lemma explore_length ras : forall st s st' s',
  explore ras st s = Done (st', s') ->
  (length (addressToExplore st') <= length (addressToExplore st) + answerSize ds ras)%nat.
Proof.
  induction ras as [|r0 ras IH]; intros st s st' s' H; simpl in H.
  - apply ret_Done in H as [-> ->]. lia.
  - unfold answerSize. simpl. fold (answerSize ds ras).
    destruct (JsSet.has r0 (clusterRewardAccounts st)).
    + apply IH in H. lia.
    + apply bind_Done in H as ([] & s1 & _ & H).
      apply bind_Done in H as (l0 & s2 & Hl0 & H).
      apply await_Done in Hl0 as [Hl0 ->].
      apply bind_Done in H as ([] & s3 & _ & H).
      apply IH in H. simpl in H. rewrite Hl0.
      pose proof (length_insertRange l0 (addressToExplore st)). lia.
Qed.

Lemma loop_drains fuel : forall st s,
  (forall a, a ∈ addressToExplore st -> a ∈ clusterAddresses st) ->
  (length (addressToExplore st) < fuel)%nat ->
  loop fuel st s = Done (drained st, s).
Proof.
  induction fuel as [|fuel IH]; intros st s Hsub Hlen; [lia|]. simpl.
  destruct st as [cluster visited frontier]. simpl in *.
  destruct frontier as [|a frontier]; [done|]. simpl.
  assert (Ha : a ∈ cluster) by (apply Hsub, elem_of_cons; by left).
  apply has_true in Ha. rewrite Ha.
  rewrite IH; [done| |].
  - simpl. intros b Hb. apply elem_of_delete in Hb as [Hb _]. by apply Hsub.
  - simpl in *.
    assert (E : ClusteredWallet._popFromSet (a :: frontier)
                = (Some a, JsSet.delete a (a :: frontier))) by done.
    apply popFromSet_shrinks in E as [E _]. simpl in E. lia.
Qed.

Lemma loop_drains_Done fuel : forall st s st' s',
  (forall a, a ∈ addressToExplore st -> a ∈ clusterAddresses st) ->
  loop fuel st s = Done (st', s') ->
  st' = drained st /\ s' = s.
Proof.
  induction fuel as [|fuel IH]; intros st s st' s' Hsub H; [done|]. simpl in H.
  destruct st as [cluster visited frontier]. simpl in *.
  destruct frontier as [|a frontier]; [apply ret_Done in H as [-> ->]; done|]. simpl in H.
  assert (Ha : a ∈ cluster) by (apply Hsub, elem_of_cons; by left).
  apply has_true in Ha. rewrite Ha in H.
  apply IH in H; [done|].
  simpl. intros b Hb. apply elem_of_delete in Hb as [Hb _]. by apply Hsub.
Qed.
End FrontierFacts.

(** ** The seed's iteration and the shape of a finished discovery *)

Section DiscoverFacts.
Context {St : Type}.
Context (sdk : CardanoSdk).
Context (ds : IBlockchainDataSource.t).
Context (mon : option (ProgressMonitor St)).

Import ClusteredWallet.

Abbreviation explore := (exploreRewardAccounts ds mon).
Abbreviation loop := (frontierLoop ds mon).

(** The first iteration pops the seed and explores its reward accounts. *)
Lemma loop_seed fuel seed :
  loop (S fuel) (seeded seed) =
    (notify mon ("Getting reward accounts for " +:+ seed +:+ ".") ;;
     let* rewardAccounts := await (IBlockchainDataSource.getRewardAccounts ds seed) in
     let* st := explore rewardAccounts noSets in
     if (0 <? JsSet.size (addressToExplore st))%nat then loop fuel st else ret st).
Proof.
  unfold seeded. cbn [frontierLoop addressToExplore clusterAddresses clusterRewardAccounts].
  assert (Hno : JsSet.has seed JsSet.empty = false) by (apply has_false, not_elem_of_nil).
  replace (JsSet.add seed JsSet.empty) with [seed]
    by (unfold JsSet.add; by rewrite Hno).
  cbn [JsSet.size length Nat.eqb _popFromSet].
  replace (JsSet.delete seed [seed]) with JsSet.empty
    by (unfold JsSet.delete; by rewrite filter_cons_False by (intros ?; done)).
  by rewrite Hno.
Qed.

(** After the seed's iteration the frontier holds cluster members only, so
    the loop ends with the sets the seed's iteration produced. *)
Lemma loop_seed_Done fuel seed s st s' :
  loop fuel (seeded seed) s = Done (st, s') ->
  exists ras,
    IBlockchainDataSource.getRewardAccounts ds seed = Ok ras
    /\ (forall a, a ∈ clusterAddresses st <->
          exists r l, r ∈ ras /\ IBlockchainDataSource.getAddresses ds r = Ok l /\ a ∈ l)
    /\ (forall r, r ∈ clusterRewardAccounts st <-> r ∈ ras)
    /\ (forall r, r ∈ ras -> exists l, IBlockchainDataSource.getAddresses ds r = Ok l).
Proof.
  destruct fuel as [|fuel]; [done|]. rewrite loop_seed. intros H.
  apply bind_Done in H as ([] & s1 & _ & H).
  apply bind_Done in H as (ras & s2 & Hras & H).
  apply await_Done in Hras as [Hras ->].
  apply bind_Done in H as (st1 & s3 & Hex & H).
  destruct (explore_Done _ _ _ _ _ _ _ Hex) as (I1 & I2 & I3 & I4 & I5 & I6).
  assert (clusterAddresses st = clusterAddresses st1
          /\ clusterRewardAccounts st = clusterRewardAccounts st1) as [E1 E2].
  { destruct (0 <? JsSet.size (addressToExplore st1))%nat.
    - apply loop_drains_Done in H as [-> _]; [done|].
      intros a Ha. by rewrite <- I1.
    - by apply ret_Done in H as [-> _]. }
  exists ras. rewrite E1, E2. split_and!; [done| | |].
  - intros a. rewrite I4. simpl. rewrite elem_of_nil. split.
    + intros [[]|(r&l&?&?&?&?)]. by exists r, l.
    + intros (r&l&?&?&?). right. exists r, l. split_and!; try done. apply not_elem_of_nil.
  - intros r. rewrite I5. simpl. rewrite elem_of_nil. tauto.
  - intros r Hr. apply I6; [done|]. apply not_elem_of_nil.
Qed.

(** The loop needs no more fuel than [fuelBound]. *)
Lemma loop_seed_settles fuel seed :
  (fuelBound ds seed <= fuel)%nat -> settles (loop fuel (seeded seed)).
Proof.
  unfold fuelBound. intros Hfuel.
  destruct fuel as [|fuel]; [destruct (IBlockchainDataSource.getRewardAccounts _ _); lia|].
  rewrite loop_seed. apply settles_bind; [apply settles_notify|intros _].
  destruct (IBlockchainDataSource.getRewardAccounts ds seed) as [ras|e];
    [|intros s; right; by eexists].
  intros s. unfold bind, await. destruct (explore_settles ds mon ras noSets s) as [[[st1 s1] E]|[e E]];
    rewrite E; [|right; by eexists].
  destruct (0 <? JsSet.size (addressToExplore st1))%nat; [|left; by eexists].
  left. eexists. apply loop_drains.
  - destruct (explore_Done _ _ _ _ _ _ _ E) as (I1 & _). intros a Ha. by rewrite <- I1.
  - apply explore_length in E. simpl in E. lia.
Qed.

Lemma collectAddressInfo_settles addresses : forall us infos,
  settles (collectAddressInfo sdk ds addresses us infos : M St _).
Proof.
  induction addresses as [|a addresses IH]; intros us infos; simpl; [apply settles_ret|].
  settle. apply IH.
Qed.

Lemma collectRewardAccountInfo_settles ras : forall infos,
  settles (collectRewardAccountInfo ds ras infos : M St _).
Proof.
  induction ras as [|r ras IH]; intros infos; simpl; [apply settles_ret|].
  settle. destruct a; apply IH.
Qed.

Lemma discover_settles fuel seed :
  (fuelBound ds seed <= fuel)%nat -> settles (discover sdk ds mon fuel seed).
Proof.
  intros Hfuel. unfold discover. settle.
  - by apply loop_seed_settles.
  - apply collectAddressInfo_settles.
  - apply collectRewardAccountInfo_settles.
Qed.
End DiscoverFacts.

(** ** Arrays: first occurrences, sums *)

Section ArrayFacts.
Context {A : Type}.
Implicit Types (p : A -> bool) (l pre rest : list A).

Lemma findIndex_from_first p : forall pre i x rest,
  (forall y, y ∈ pre -> p y = false) -> p x = true ->
  findIndex_from p i (pre ++ x :: rest) = i + Z.of_nat (length pre).
Proof.
  induction pre as [|y pre IH]; intros i x rest Hpre Hx; simpl.
  - rewrite Hx. lia.
  - rewrite (Hpre y) by (apply elem_of_cons; by left).
    rewrite IH; [lia| |done]. intros z Hz. apply Hpre, elem_of_cons. by right.
Qed.

Lemma findIndex_from_early p : forall pre i rest,
  (exists y, y ∈ pre /\ p y = true) ->
  i <= findIndex_from p i (pre ++ rest) < i + Z.of_nat (length pre).
Proof.
  induction pre as [|y pre IH]; intros i rest (z & Hz & Hpz).
  - by apply elem_of_nil in Hz.
  - simpl. destruct (p y) eqn:Hy; [lia|].
    apply elem_of_cons in Hz as [->|Hz]; [congruence|].
    specialize (IH (i + 1) rest (ex_intro _ z (conj Hz Hpz))). lia.
Qed.

Lemma filter_from_subset (q : A -> Z -> bool) l : forall i x,
  x ∈ filter_from q i l -> x ∈ l.
Proof.
  induction l as [|y l IH]; intros i x; simpl; [done|].
  destruct (q y i); rewrite ?elem_of_cons; [intros [->|H]|intros H]; eauto.
Qed.

Lemma fold_left_sum (f : A -> Z) l : forall acc,
  fold_left (fun acc x => acc + f x) l acc = acc + Zsum (map f l).
Proof.
  induction l as [|x l IH]; intros acc; simpl; [lia|]. rewrite IH. lia.
Qed.
End ArrayFacts.

Section DedupFacts.
Import ClusteredWallet.

Lemma sameKey_true value t : sameKey value t = true <-> Utxo.key t = Utxo.key value.
Proof.
  unfold sameKey, Utxo.key.
  rewrite andb_true_iff, bool_decide_eq_true, Z.eqb_eq. split; [intros [-> ->]|]; [done|].
  intros H. by simplify_eq.
Qed.

Lemma sameKey_false value t : sameKey value t = false <-> Utxo.key t ≠ Utxo.key value.
Proof. rewrite <- sameKey_true. destruct (sameKey value t); naive_solver. Qed.

(** The filter keeps an element exactly when no earlier element has its key. *)
Lemma firstWithKey_spec pre value rest :
  firstWithKey value (Z.of_nat (length pre)) (pre ++ value :: rest) = true
  <-> Utxo.key value ∉ map Utxo.key pre.
Proof.
  unfold firstWithKey, findIndex. fold (sameKey value). rewrite Z.eqb_eq. split.
  - intros E Hin. apply list_elem_of_fmap in Hin as (t & Ht & Hin).
    pose proof (findIndex_from_early (sameKey value) pre 0 (value :: rest)) as H.
    destruct H as [_ H]; [|lia]. exists t. split; [done|]. by apply sameKey_true.
  - intros Hnot. rewrite findIndex_from_first; [lia| |by apply sameKey_true].
    intros t Ht. apply sameKey_false. intros E. apply Hnot, list_elem_of_fmap. by exists t.
Qed.

Lemma filter_from_first_keys rest : forall pre,
  let kept := filter_from (fun value index => firstWithKey value index (pre ++ rest))
                (Z.of_nat (length pre)) rest in
  NoDup (map Utxo.key kept)
  /\ (forall k, k ∈ map Utxo.key kept <->
                k ∈ map Utxo.key rest /\ k ∉ map Utxo.key pre).
Proof.
  induction rest as [|v rest IH]; intros pre; simpl.
  - split; [constructor|]. intros k. rewrite elem_of_nil. tauto.
  - specialize (IH (pre ++ [v])). rewrite <- app_assoc in IH. simpl in IH.
    rewrite length_app in IH. simpl in IH.
    replace (Z.of_nat (length pre + 1)) with (Z.of_nat (length pre) + 1) in IH by lia.
    destruct IH as [IHnd IHin].
    assert (Hin : forall k, k ∈ map Utxo.key (pre ++ [v]) <->
                            k ∈ map Utxo.key pre \/ k = Utxo.key v).
    { intros k. rewrite map_app, elem_of_app. simpl. by rewrite list_elem_of_singleton. }
    destruct (firstWithKey v (Z.of_nat (length pre)) (pre ++ v :: rest)) eqn:E.
    + apply firstWithKey_spec in E. simpl. split.
      * constructor; [|done]. rewrite IHin, Hin. tauto.
      * intros k. rewrite !elem_of_cons, IHin, Hin.
        destruct (decide (k = Utxo.key v)) as [->|]; tauto.
    + assert (Utxo.key v ∈ map Utxo.key pre) as Hv.
      { destruct (decide (Utxo.key v ∈ map Utxo.key pre)) as [|Hn]; [done|].
        apply (firstWithKey_spec pre v rest) in Hn. congruence. }
      split; [done|]. intros k. rewrite IHin, Hin, elem_of_cons.
      destruct (decide (k = Utxo.key v)) as [->|]; tauto.
Qed.

(** [clusterUtxos.filter(...)] keeps one output per key and loses no key. *)
Lemma array_filter_firstWithKey (clusterUtxos : list Utxo.t) :
  NoDup (map Utxo.key (array_filter firstWithKey clusterUtxos))
  /\ (forall k, k ∈ map Utxo.key (array_filter firstWithKey clusterUtxos) <->
                k ∈ map Utxo.key clusterUtxos)
  /\ (forall u, u ∈ array_filter firstWithKey clusterUtxos -> u ∈ clusterUtxos).
Proof.
  unfold array_filter.
  destruct (filter_from_first_keys clusterUtxos []) as [Hnd Hin]. simpl in Hnd, Hin.
  split_and!; [done| |apply filter_from_subset].
  intros k. rewrite Hin. simpl. rewrite elem_of_nil. tauto.
Qed.
End DedupFacts.

(** ** Coalescing values *)

Section ValueFacts.
Lemma coins_addValue x y :
  Cardano.coins (addValue x y) = Cardano.coins x + Cardano.coins y.
Proof. done. Qed.

Lemma quantityOf_addValue asset x y :
  Cardano.quantityOf asset (addValue x y)
  = Cardano.quantityOf asset x + Cardano.quantityOf asset y.
Proof.
  unfold Cardano.quantityOf, addValue. simpl. rewrite lookup_union_with.
  destruct (Cardano.assets x !! asset), (Cardano.assets y !! asset); simpl; lia.
Qed.

Lemma coins_fold (l : list Cardano.Value) : forall acc,
  Cardano.coins (fold_left addValue l acc)
  = Cardano.coins acc + Zsum (map Cardano.coins l).
Proof.
  induction l as [|v l IH]; intros acc; simpl; [lia|].
  rewrite IH, coins_addValue. lia.
Qed.

Lemma quantityOf_fold asset (l : list Cardano.Value) : forall acc,
  Cardano.quantityOf asset (fold_left addValue l acc)
  = Cardano.quantityOf asset acc + Zsum (map (Cardano.quantityOf asset) l).
Proof.
  induction l as [|v l IH]; intros acc; simpl; [lia|].
  rewrite IH, quantityOf_addValue. lia.
Qed.

(** The coalesced value is the sum of the coins and, asset by asset, the sum
    of the quantities. *)
Lemma coalesceValueQuantities_sums (l : list Cardano.Value) :
  Cardano.coins (coalesceValueQuantities l) = Zsum (map Cardano.coins l)
  /\ forall asset,
      Cardano.quantityOf asset (coalesceValueQuantities l)
      = Zsum (map (Cardano.quantityOf asset) l).
Proof.
  unfold coalesceValueQuantities. split; [by rewrite coins_fold|].
  intros asset. rewrite quantityOf_fold. unfold Cardano.quantityOf, zeroValue. simpl.
  by rewrite lookup_empty.
Qed.
End ValueFacts.

(** ** The two collection loops and the wallet they feed *)

Section WalletFacts.
Context {St : Type}.
Context (sdk : CardanoSdk).
Context (ds : IBlockchainDataSource.t).
Context (mon : option (ProgressMonitor St)).

Import ClusteredWallet.

Lemma collectAddressInfo_Done addresses : forall us infos (s : St) us' infos' s',
  collectAddressInfo sdk ds addresses us infos s = Done ((us', infos'), s') ->
  s' = s /\
  exists news,
    infos' = infos ++ news
    /\ map AddressInfo.address news = addresses
    /\ us' = us ++ concat (map AddressInfo.utxos news)
    /\ Forall (faithfulInfo ds) news.
Proof.
  induction addresses as [|a addresses IH]; intros us infos s us' infos' s' H; simpl in H.
  - apply ret_Done in H as [H ->]. simplify_eq. split; [done|]. exists [].
    by rewrite !app_nil_r.
  - apply bind_Done in H as (utxos & s1 & H1 & H). apply await_Done in H1 as [H1 ->].
    apply bind_Done in H as (pc & s2 & H2 & H). apply await_Done in H2 as [H2 ->].
    apply bind_Done in H as (sc & s3 & H3 & H). apply await_Done in H3 as [H3 ->].
    apply IH in H as (-> & news & -> & <- & -> & Hall). split; [done|].
    eexists (_ :: news). split_and!.
    + by rewrite <- app_assoc.
    + done.
    + simpl. by rewrite <- !app_assoc.
    + constructor; [|done]. by split.
Qed.

Lemma collectRewardAccountInfo_Done ras : forall infos (s : St) infos' s',
  collectRewardAccountInfo ds ras infos s = Done (infos', s') ->
  s' = s
  /\ infos' = infos ++ omap (retained ds) ras
  /\ forall r, r ∈ ras ->
       exists info, IBlockchainDataSource.getRewardAccountInfo ds r = Ok info.
Proof.
  induction ras as [|r0 ras IH]; intros infos s infos' s' H; simpl in H.
  - apply ret_Done in H as [-> ->]. rewrite app_nil_r. split_and!; try done.
    intros r Hr. by apply elem_of_nil in Hr.
  - apply bind_Done in H as (info & s1 & H1 & H). apply await_Done in H1 as [H1 ->].
    assert (E : omap (retained ds) (r0 :: ras)
                = from_option (fun i => [i]) [] info ++ omap (retained ds) ras).
    { simpl. unfold retained at 1. rewrite H1. by destruct info. }
    rewrite E. clear E.
    destruct info as [info|]; apply IH in H as (-> & -> & Hall); simpl;
      (split_and!; [done|by rewrite <- ?app_assoc|]);
      intros r [->|Hr]%elem_of_cons; eauto.
Qed.

Lemma collectRewardAccountInfo_total ras : forall infos (s : St),
  (forall r, r ∈ ras ->
     exists info, IBlockchainDataSource.getRewardAccountInfo ds r = Ok info) ->
  collectRewardAccountInfo ds ras infos s = Done (infos ++ omap (retained ds) ras, s).
Proof.
  induction ras as [|r0 ras IH]; intros infos s Hall.
  - simpl. by rewrite app_nil_r.
  - destruct (Hall r0) as [info Hinfo]; [apply elem_of_cons; by left|].
    assert (E : omap (retained ds) (r0 :: ras)
                = from_option (fun i => [i]) [] info ++ omap (retained ds) ras).
    { simpl. unfold retained at 1. rewrite Hinfo. by destruct info. }
    rewrite E. clear E. cbn [collectRewardAccountInfo]. rewrite Hinfo.
    unfold bind, await.
    destruct info as [info|]; rewrite IH; simpl; rewrite <- ?app_assoc; try done;
      intros r Hr; apply Hall, elem_of_cons; by right.
Qed.

(** A finished discovery, taken apart. *)
Lemma discover_Done fuel seed s w s' :
  discover sdk ds mon fuel seed s = Done (w, s') ->
  exists st s1 s2 infos,
    frontierLoop ds mon fuel (seeded seed) s1 = Done (st, s2)
    /\ collectAddressInfo sdk ds (clusterAddresses st) [] [] s2
       = Done ((concat (map AddressInfo.utxos infos), infos), s2)
    /\ map AddressInfo.address infos = clusterAddresses st
    /\ Forall (faithfulInfo ds) infos
    /\ (forall r, r ∈ clusterRewardAccounts st ->
          exists info, IBlockchainDataSource.getRewardAccountInfo ds r = Ok info)
    /\ w = walletOf (concat (map AddressInfo.utxos infos)) infos
             (omap (retained ds) (clusterRewardAccounts st)).
Proof.
  unfold discover. intros H.
  apply bind_Done in H as ([] & s1 & _ & H).
  apply bind_Done in H as (st & s2 & Hloop & H).
  apply bind_Done in H as ([us infos] & s3 & Hcol & H).
  apply bind_Done in H as (rinfos & s4 & Hrew & H).
  apply bind_Done in H as ([] & s5 & _ & H).
  apply ret_Done in H as [-> ->].
  pose proof Hcol as Hcol'.
  apply collectAddressInfo_Done in Hcol' as (-> & news & E1 & E2 & E3 & Hall).
  apply collectRewardAccountInfo_Done in Hrew as (-> & E4 & Hinfo).
  simpl in E1, E3, E4. subst infos us rinfos.
  exists st, s1, s2, news. by split_and!.
Qed.
End WalletFacts.

(** * What a finished discovery contains *)

Section ClusterShape.
Context {St : Type}.
Context (sdk : CardanoSdk).
Context (ds : IBlockchainDataSource.t).
Context (mon : option (ProgressMonitor St)).

(** With [fuelBound] iterations allowed, the loop of [discover] ends: the
    run resolves or rejects, whatever the explorer and the monitor do. *)
Lemma discover_terminates fuel seed s :
  (fuelBound ds seed <= fuel)%nat ->
  (exists w s', ClusteredWallet.discover sdk ds mon fuel seed s = Done (w, s'))
  \/ (exists e, ClusteredWallet.discover sdk ds mon fuel seed s = Throw e).
Proof.
  intros Hfuel.
  destruct (discover_settles sdk ds mon fuel seed Hfuel s) as [[[w s'] E]|[e E]];
    [left|right]; eauto.
Qed.

(** The addresses of the wallet are the addresses one step away from the
    seed, and its reward accounts come from the seed's reward accounts:
    only the seed is ever expanded. *)
Lemma discover_cluster_is_one_step fuel seed s w s' :
  ClusteredWallet.discover sdk ds mon fuel seed s = Done (w, s') ->
  (forall a, a ∈ map AddressInfo.address (ClusteredWallet.getAddresses w)
             <-> link ds seed a)
  /\ exists ras,
       IBlockchainDataSource.getRewardAccounts ds seed = Ok ras
       /\ forall info, info ∈ ClusteredWallet.getRewardAccounts w ->
            exists r, r ∈ ras /\
              IBlockchainDataSource.getRewardAccountInfo ds r = Ok (Some info).
Proof.
  intros H.
  apply discover_Done in H as (st & s1 & s2 & infos & Hloop & _ & Haddr & _ & _ & ->).
  apply loop_seed_Done in Hloop as (ras & Hras & Hcl & Hvis & _).
  unfold ClusteredWallet.getAddresses, ClusteredWallet.getRewardAccounts. simpl.
  split.
  - intros a. rewrite Haddr, Hcl. unfold link. rewrite Hras. split.
    + intros (r & l & ? & ? & ?). by exists ras, r, l.
    + intros (ras' & r & l & ? & ? & ? & ?). simplify_eq. by exists r, l.
  - exists ras. split; [done|]. intros info Hin.
    apply list_elem_of_omap in Hin as (r & Hr & Hret). exists r. split; [by apply Hvis|].
    unfold retained in Hret.
    destruct (IBlockchainDataSource.getRewardAccountInfo ds r) as [[i|]|]; by simplify_eq.
Qed.
(** One half of the closure property does hold: every address of the
    wallet is reachable from the seed. *)
Lemma discover_cluster_reachable fuel seed s w s' :
  ClusteredWallet.discover sdk ds mon fuel seed s = Done (w, s') ->
  forall a, a ∈ map AddressInfo.address (ClusteredWallet.getAddresses w) ->
            reachable ds seed a.
Proof.
  intros H a Ha. apply discover_cluster_is_one_step in H as [H _].
  apply rtc_once. by apply H.
Qed.
End ClusterShape.

(** * The specification, statement by statement *)

(** ** C4: one entry per output *)

(** C4. The UTXO list of a wallet returned by [discover] has at most one
    entry per (transaction hash, output index) pair, however often an output
    was fetched into the running list; and no fetched output loses its entry. *)
Theorem discover_utxos_unique {St} sdk ds (mon : option (ProgressMonitor St))
    fuel seed s w s' :
  ClusteredWallet.discover sdk ds mon fuel seed s = Done (w, s') ->
  NoDup (map Utxo.key (ClusteredWallet.getUTXOs w))
  /\ forall k,
       k ∈ map Utxo.key (ClusteredWallet.getUTXOs w) <->
       k ∈ map Utxo.key
             (concat (map AddressInfo.utxos (ClusteredWallet.getAddresses w))).
Proof.
  intros H.
  apply discover_Done in H as (st & s1 & s2 & infos & _ & _ & _ & _ & _ & ->).
  unfold ClusteredWallet.getUTXOs, ClusteredWallet.getAddresses. simpl.
  destruct (array_filter_firstWithKey (concat (map AddressInfo.utxos infos)))
    as (Hnd & Hkeys & _).
  by split.
Qed.

(** ** C5: balance coherence *)

(** C5. The balance of a wallet returned by [discover] is the sum of the
    values of the outputs [getUTXOs] returns: the coins are added up, and so
    are the quantities of every asset identifier. *)
Theorem discover_balance_coherent {St} sdk ds (mon : option (ProgressMonitor St))
    fuel seed s w s' :
  ClusteredWallet.discover sdk ds mon fuel seed s = Done (w, s') ->
  let values := map Utxo.value (ClusteredWallet.getUTXOs w) in
  ClusteredWallet.getBalance w = coalesceValueQuantities values
  /\ Cardano.coins (ClusteredWallet.getBalance w) = Zsum (map Cardano.coins values)
  /\ forall asset,
       Cardano.quantityOf asset (ClusteredWallet.getBalance w)
       = Zsum (map (Cardano.quantityOf asset) values).
Proof.
  intros H values.
  apply discover_Done in H as (st & s1 & s2 & infos & _ & _ & _ & _ & _ & ->).
  subst values. unfold ClusteredWallet.getUTXOs, ClusteredWallet.getBalance. simpl.
  split; [done|]. apply coalesceValueQuantities_sums.
Qed.

(** ** C6: reward accounts without info *)

(** C6. Once the frontier loop and the address loop have completed, a reward
    account whose info is absent does not make [discover] fail: the wallet's
    reward-account list holds exactly the infos that are present, in the order
    the accounts were visited; the rewards total is the sum of their [rewards];
    and every address the explorer lists for a visited reward account, with or
    without info, is an address of the wallet. *)
Theorem discover_absent_reward_info {St} sdk ds fuel seed (s : St) st collected :
  ClusteredWallet.frontierLoop ds None fuel (seeded seed) s = Done (st, s) ->
  ClusteredWallet.collectAddressInfo sdk ds (ClusteredWallet.clusterAddresses st) [] [] s
    = Done (collected, s) ->
  (forall r, r ∈ ClusteredWallet.clusterRewardAccounts st ->
     exists info, IBlockchainDataSource.getRewardAccountInfo ds r = Ok info) ->
  exists w,
    ClusteredWallet.discover sdk ds None fuel seed s = Done (w, s)
    /\ ClusteredWallet.getRewardAccounts w
       = omap (retained ds) (ClusteredWallet.clusterRewardAccounts st)
    /\ (forall info, info ∈ ClusteredWallet.getRewardAccounts w <->
          exists r, r ∈ ClusteredWallet.clusterRewardAccounts st /\
            IBlockchainDataSource.getRewardAccountInfo ds r = Ok (Some info))
    /\ ClusteredWallet.getRewards w
       = Zsum (map RewardAccountInfo.rewards (ClusteredWallet.getRewardAccounts w))
    /\ (forall r l a,
          r ∈ ClusteredWallet.clusterRewardAccounts st ->
          IBlockchainDataSource.getAddresses ds r = Ok l -> a ∈ l ->
          a ∈ map AddressInfo.address (ClusteredWallet.getAddresses w)).
Proof.
  intros Hloop Hcol Hinfo. destruct collected as [us infos].
  eexists. split.
  { unfold ClusteredWallet.discover, bind, notify. cbv zeta.
    unfold seeded in Hloop. rewrite Hloop, Hcol.
    rewrite collectRewardAccountInfo_total by done. reflexivity. }
  unfold ClusteredWallet.getRewardAccounts, ClusteredWallet.getRewards,
    ClusteredWallet.getAddresses. simpl.
  split_and!.
  - done.
  - intros info. rewrite list_elem_of_omap. unfold retained.
    split; intros (r & Hr & H); exists r; (split; [done|]).
    + destruct (IBlockchainDataSource.getRewardAccountInfo ds r) as [[i|]|]; by simplify_eq.
    + by rewrite H.
  - by rewrite fold_left_sum.
  - intros r l a Hr Hl Ha.
    apply collectAddressInfo_Done in Hcol as (_ & news & E & Haddr & _ & _).
    simpl in E. subst infos. rewrite Haddr.
    apply loop_seed_Done in Hloop as (ras & _ & Hcl & Hvis & _).
    apply Hcl. exists r, l. split_and!; [by apply Hvis|done|done].
Qed.

(** ** C8: the payment credential of an address *)

Lemma getPaymentCredential_value sdk address :
  getPaymentCredential sdk address
  = match fromBech32 sdk address with
    | None => Err (InvalidAddress address)
    | Some addr =>
        match paymentPart addr with
        | Some payment => Ok (bech32_encode sdk "addr_vkh" (Cardano.hash payment) 1023)
        | None => Err (TypeError "paymentCredential.hash")
        end
    end.
Proof.
  unfold getPaymentCredential, decodeAddress, paymentPart.
  destruct (fromBech32 sdk address) as [addr|]; [|done]. simpl.
  destruct (Cardano.asBase addr); [done|]. by destruct (Cardano.asEnterprise addr).
Qed.

Lemma paymentPart_None addr :
  paymentPart addr = None <->
  Cardano.asBase addr = None /\ Cardano.asEnterprise addr = None.
Proof.
  unfold paymentPart. destruct (Cardano.asBase addr); [split; [done|by intros [? _]]|].
  destruct (Cardano.asEnterprise addr); simpl; split; try done; by intros [_ ?].
Qed.

(** C8, as amended. [getPaymentCredential] returns exactly when the address
    decodes to a base or an enterprise address, and then it returns the hash
    of that address's payment credential, key hash or script hash alike,
    re-encoded under the [addr_vkh] prefix. It fails in two ways and no other:
    with the decoder's exception when the text does not decode, and with a
    [TypeError] when the decoded address is neither a base nor an enterprise
    address (a reward address). *)
Theorem getPaymentCredential_outcomes sdk address :
  (forall credential,
     getPaymentCredential sdk address = Ok credential <->
     exists addr payment,
       fromBech32 sdk address = Some addr /\ paymentPart addr = Some payment /\
       credential = bech32_encode sdk "addr_vkh" (Cardano.hash payment) 1023)
  /\ (forall e,
        getPaymentCredential sdk address = Err e <->
        (fromBech32 sdk address = None /\ e = InvalidAddress address)
        \/ (exists addr,
              fromBech32 sdk address = Some addr /\
              Cardano.asBase addr = None /\ Cardano.asEnterprise addr = None /\
              e = TypeError "paymentCredential.hash")).
Proof.
  rewrite getPaymentCredential_value.
  destruct (fromBech32 sdk address) as [addr|] eqn:Hdec.
  - destruct (paymentPart addr) as [payment|] eqn:Hpay.
    + split.
      * intros credential. split.
        -- intros [= <-]. by exists addr, payment.
        -- intros (addr' & payment' & [= <-] & Hpay' & ->). congruence.
      * intros e. split; [done|].
        intros [[? _]|(addr' & [= <-] & Hb & He & _)]; [done|].
        assert (paymentPart addr = None) by by apply paymentPart_None. congruence.
    + split.
      * intros credential. split; [done|].
        intros (addr' & payment' & [= <-] & Hpay' & _). congruence.
      * intros e. split.
        -- intros [= <-]. right. exists addr. apply paymentPart_None in Hpay as [? ?].
           by split_and!.
        -- intros [[? _]|(addr' & _ & _ & _ & ->)]; done.
  - split.
    + intros credential. split; [done|]. by intros (addr & payment & ? & _).
    + intros e. split.
      * intros [= <-]. by left.
      * intros [[_ ->]|(addr & ? & _)]; done.
Qed.

(** C8, as stated, fails. A pointer address decodes and carries a payment
    part, yet [getPaymentCredential] throws on it: the code looks at the
    enterprise and the base view only. And what it re-encodes under
    [addr_vkh] need not be a key hash: the script hash of a script address
    comes back the same way. *)
Lemma getPaymentCredential_not_as_specified :
  ~ resolvesAsSpecified pointerBook "ptr_P1"
  /\ (exists addr,
        fromBech32 pointerBook "ptr_P1" = Some addr
        /\ carriedPaymentPart addr = Some (keyHash "P1")
        /\ getPaymentCredential pointerBook "ptr_P1"
           = Err (TypeError "paymentCredential.hash"))
  /\ (exists addr,
        fromBech32 pointerBook "script_P1" = Some addr
        /\ carriedPaymentPart addr = Some (scriptHash "P1")
        /\ getPaymentCredential pointerBook "script_P1" = Ok "addr_vkh1P1").
Proof.
  split_and!.
  - unfold resolvesAsSpecified.
    change (fromBech32 pointerBook "ptr_P1") with (Some (pointerAddress (keyHash "P1"))).
    change (carriedPaymentPart (pointerAddress (keyHash "P1")))
      with (Some (keyHash "P1")).
    change (getPaymentCredential pointerBook "ptr_P1")
      with (Err (A:=string) (TypeError "paymentCredential.hash")).
    discriminate.
  - by exists (pointerAddress (keyHash "P1")).
  - by exists (enterpriseAddress (scriptHash "P1")).
Qed.

(** ** C10: the popped address is defined *)

(** C10. No run of [discover] reaches the branch in which [_popFromSet]
    falls off its end: the set is popped only when it is not empty, so the
    popped address is always a string. *)
Theorem discover_never_pops_undefined {St} sdk ds (mon : option (ProgressMonitor St))
    fuel seed s :
  ClusteredWallet.discover sdk ds mon fuel seed s ≠ UndefinedAddress.
Proof.
  assert (Hsettled : forall A (m : M St A), settles m -> forall s, m s ≠ UndefinedAddress).
  { intros A m Hm s0. by destruct (Hm s0) as [[r ->]|[e ->]]. }
  assert (Hbind : forall A B (m : M St A) (k : A -> M St B),
             (forall s, m s ≠ UndefinedAddress) ->
             (forall a s, k a s ≠ UndefinedAddress) ->
             forall s, bind m k s ≠ UndefinedAddress).
  { intros A B m k Hm Hk s0. unfold bind. specialize (Hm s0).
    destruct (m s0) as [[a s1]| | |]; done. }
  assert (Hloop : forall fuel st s,
             ClusteredWallet.frontierLoop ds mon fuel st s ≠ UndefinedAddress).
  { clear fuel s. induction fuel as [|fuel IH]; intros st s; [done|]. simpl.
    destruct (ClusteredWallet.addressToExplore st) as [|a frontier] eqn:E; [done|].
    simpl. destruct (JsSet.has a _); [apply IH|].
    apply Hbind; [apply Hsettled, settles_notify|intros _ ?].
    apply Hbind; [apply Hsettled, settles_await|intros ras ?].
    apply Hbind; [apply Hsettled, explore_settles|intros st' ?].
    destruct (0 <? _)%nat; [apply IH|done]. }
  unfold ClusteredWallet.discover.
  apply Hbind; [apply Hsettled, settles_notify|intros _ ?].
  apply Hbind; [apply Hloop|intros st ?].
  apply Hsettled. settle.
  - apply collectAddressInfo_settles.
  - apply collectRewardAccountInfo_settles.
Qed.

(** ** C9: the progress monitor *)

Section Observational.
Context {St1 St2 : Type}.
Context (monitor : ProgressMonitor St1) (Hquiet : neverThrows monitor).
Context (sdk : CardanoSdk) (ds : IBlockchainDataSource.t).

Lemma sameVerdict_ret {A} (a : A) : sameVerdict (ret a : M St1 A) (ret a : M St2 A).
Proof. done. Qed.

Lemma sameVerdict_await {A} (r : result A) :
sameVerdict (await r : M St1 A) (await r : M St2 A).
Proof. intros s1 s2. unfold await. by destruct r. Qed.

Lemma sameVerdict_notify message :
sameVerdict (notify (Some monitor) message) (notify (None : option (ProgressMonitor St2)) message).
Proof.
intros s1 s2. unfold notify. by destruct (Hquiet message s1) as [s' ->].
Qed.

Lemma sameVerdict_bind {A B} (m1 : M St1 A) (m2 : M St2 A)
  (k1 : A -> M St1 B) (k2 : A -> M St2 B) :
sameVerdict m1 m2 -> (forall a, sameVerdict (k1 a) (k2 a)) ->
sameVerdict (bind m1 k1) (bind m2 k2).
Proof.
intros Hm Hk s1 s2. unfold bind. specialize (Hm s1 s2).
destruct (m1 s1) as [[a t1]| | |], (m2 s2) as [[b t2]| | |];
  simpl in Hm; simplify_eq; simpl; try done.
apply Hk.
Qed.

Ltac same_step :=
first [ apply sameVerdict_ret | apply sameVerdict_await | apply sameVerdict_notify
      | apply sameVerdict_bind; [|intros ?] ].

Lemma sameVerdict_explore ras : forall st,
sameVerdict (ClusteredWallet.exploreRewardAccounts ds (Some monitor) ras st)
            (ClusteredWallet.exploreRewardAccounts ds (None : option (ProgressMonitor St2)) ras st).
Proof.
induction ras as [|r ras IH]; intros st; simpl; [same_step|].
destruct (JsSet.has r _); [apply IH|]. repeat same_step. apply IH.
Qed.

Lemma sameVerdict_loop fuel : forall st,
sameVerdict (ClusteredWallet.frontierLoop ds (Some monitor) fuel st)
            (ClusteredWallet.frontierLoop ds (None : option (ProgressMonitor St2)) fuel st).
Proof.
induction fuel as [|fuel IH]; intros st; simpl; [done|].
destruct (_ =? _)%nat; [same_step|].
destruct (ClusteredWallet._popFromSet _) as [[a|] rest]; [|done].
destruct (JsSet.has a _); [apply IH|].
same_step; [same_step|]. same_step; [same_step|].
same_step; [apply sameVerdict_explore|].
destruct (0 <? _)%nat; [apply IH|same_step].
Qed.

Lemma sameVerdict_collectAddressInfo addresses : forall us infos,
sameVerdict (ClusteredWallet.collectAddressInfo sdk ds addresses us infos : M St1 _)
            (ClusteredWallet.collectAddressInfo sdk ds addresses us infos : M St2 _).
Proof.
induction addresses as [|a addresses IH]; intros us infos; simpl; [same_step|].
repeat same_step. apply IH.
Qed.

Lemma sameVerdict_collectRewardAccountInfo ras : forall infos,
sameVerdict (ClusteredWallet.collectRewardAccountInfo ds ras infos : M St1 _)
            (ClusteredWallet.collectRewardAccountInfo ds ras infos : M St2 _).
Proof.
induction ras as [|r ras IH]; intros infos; simpl; [same_step|].
same_step; [same_step|]. destruct a; apply IH.
Qed.

Lemma sameVerdict_discover fuel seed :
sameVerdict (ClusteredWallet.discover sdk ds (Some monitor) fuel seed)
            (ClusteredWallet.discover sdk ds (None : option (ProgressMonitor St2)) fuel seed).
Proof.
unfold ClusteredWallet.discover.
same_step; [same_step|]. same_step; [apply sameVerdict_loop|].
same_step; [apply sameVerdict_collectAddressInfo|].
same_step; [apply sameVerdict_collectRewardAccountInfo|].
repeat same_step.
Qed.
End Observational.

(** C9, as amended. With a monitor whose [update] returns normally on every
    message, [discover] ends exactly as it does with no monitor: the same
    wallet, or the same failure. *)
Theorem discover_monitor_observational {St} (monitor : ProgressMonitor St)
    sdk ds fuel seed (s : St) :
  neverThrows monitor ->
  verdict (ClusteredWallet.discover sdk ds (Some monitor) fuel seed s)
  = verdict (ClusteredWallet.discover sdk ds noMonitor fuel seed tt).
Proof. intros Hquiet. by apply sameVerdict_discover. Qed.

(** C9, as stated, fails: a monitor that throws makes [discover] reject where
    the run without a monitor resolves with a wallet. *)
Lemma discover_throwing_monitor_differs :
  verdict (ClusteredWallet.discover demoSdk sharedStake (Some throwingMonitor) 10 "addr_S" tt)
  = Throw (MonitorError "Starting cluster discovery from seed addr_S.")
  /\ exists w,
       verdict (ClusteredWallet.discover demoSdk sharedStake noMonitor 10 "addr_S" tt)
       = Done w.
Proof. split; [reflexivity|]. eexists. vm_compute. reflexivity. Qed.

Lemma discover_monitor_observational_witness :
  neverThrows recordingMonitor
  /\ verdict (ClusteredWallet.discover demoSdk overlapping (Some recordingMonitor)
                10 "addr_S" [])
     = verdict (ClusteredWallet.discover demoSdk overlapping noMonitor 10 "addr_S" tt).
Proof.
  assert (H : neverThrows recordingMonitor) by (intros message s; by eexists).
  split; [exact H|]. exact (discover_monitor_observational recordingMonitor _ _ _ _ _ H).
Defined.

(** ** C1, C2, C7: what the loop leaves out *)

(** C1. On the chain [S - K1 - T - K2 - U] the address [U] is reachable from
    the seed [S] through shared credentials, yet the wallet holds [S] and [T]
    only: [T] is a cluster member by the time it is popped, so it is skipped
    and [K2] is never looked at. *)
Theorem discover_chained_stops_after_seed :
  reachable chained "addr_S" "addr_U"
  /\ exists w,
       ClusteredWallet.discover demoSdk chained noMonitor 10 "addr_S" tt = Done (w, tt)
       /\ map AddressInfo.address (ClusteredWallet.getAddresses w) = ["addr_S"; "addr_T"]
       /\ "addr_U" ∉ map AddressInfo.address (ClusteredWallet.getAddresses w).
Proof.
  split.
  - apply rtc_l with "addr_T"; [|apply rtc_once].
    + exists ["stake_K1"], "stake_K1", ["addr_S"; "addr_T"].
      split_and!; [reflexivity|set_solver|reflexivity|set_solver].
    + exists ["stake_K1"; "stake_K2"], "stake_K2", ["addr_T"; "addr_U"].
      split_and!; [reflexivity|set_solver|reflexivity|set_solver].
  - eexists. split; [vm_compute; reflexivity|]. split; [reflexivity|].
    simpl. intros H. repeat (apply elem_of_cons in H as [?|H]; [done|]).
    by apply elem_of_nil in H.
Qed.

(** C2. On the cycle in which the reward account of [A] leads to [B] and the
    reward account of [B] leads back to [A], discovery from [A] ends, but the
    wallet holds [B] alone: the seed is never made a cluster member. *)
Theorem discover_cyclic_drops_seed :
  link cyclic "addr_A" "addr_B" /\ link cyclic "addr_B" "addr_A"
  /\ exists w,
       ClusteredWallet.discover demoSdk cyclic noMonitor 10 "addr_A" tt = Done (w, tt)
       /\ map AddressInfo.address (ClusteredWallet.getAddresses w) = ["addr_B"].
Proof.
  split_and!.
  - exists ["stake_KA"], "stake_KA", ["addr_B"].
    split_and!; [reflexivity|set_solver|reflexivity|set_solver].
  - exists ["stake_KB"], "stake_KB", ["addr_A"].
    split_and!; [reflexivity|set_solver|reflexivity|set_solver].
  - eexists. split; [vm_compute; reflexivity|reflexivity].
Qed.

(** C7. A seed with outputs of its own and no reward account: the wallet has
    no address, no output and a zero balance. *)
Theorem discover_unstaked_seed_is_empty :
  IBlockchainDataSource.getRewardAccounts unstakedSeed "ent_S" = Ok []
  /\ IBlockchainDataSource.getUtxos unstakedSeed "ent_S"
     = Ok [coinsOnly "tx1" 0 "ent_S" 600]
  /\ exists w,
       ClusteredWallet.discover demoSdk unstakedSeed noMonitor 10 "ent_S" tt = Done (w, tt)
       /\ ClusteredWallet.getAddresses w = []
       /\ ClusteredWallet.getUTXOs w = []
       /\ Cardano.coins (ClusteredWallet.getBalance w) = 0.
Proof.
  split_and!; [reflexivity|reflexivity|].
  eexists. split; [vm_compute; reflexivity|]. by split_and!.
Qed.

(** ** C3: the Blockfrost adapter *)

Section BlockfrostFacts.
Context (sdk : CardanoSdk) (api : Blockfrost.API) (isTestnet : bool).

(** [getAddresses] catches: it never raises. *)
Lemma Blockfrost_getAddresses_total stakeCredential :
  exists addresses, Blockfrost_getAddresses api stakeCredential = Ok addresses.
Proof.
  unfold Blockfrost_getAddresses.
  destruct (Blockfrost.accountsAddresses api stakeCredential); by eexists.
Qed.

(** [getRewardAccountInfo] catches the failure of its request. *)
Lemma Blockfrost_getRewardAccountInfo_catches rewardAccount e :
  Blockfrost.accounts api rewardAccount = Err e ->
  Blockfrost_getRewardAccountInfo sdk api rewardAccount = Ok None.
Proof. unfold Blockfrost_getRewardAccountInfo. by intros ->. Qed.

(** [getUtxos] does not: text that does not decode raises, ... *)
Lemma Blockfrost_getUtxos_raises_on_undecodable address :
  fromBech32 sdk address = None ->
  Blockfrost_getUtxos sdk api address = Err (InvalidAddress address).
Proof.
  intros H. unfold Blockfrost_getUtxos, getPaymentCredential, decodeAddress.
  by rewrite H.
Qed.

(** ... and the failure of its request is passed on, ... *)
Lemma Blockfrost_getUtxos_passes_failure address vkh e :
  getPaymentCredential sdk address = Ok vkh ->
  Blockfrost.addressesUtxos api vkh = Err e ->
  Blockfrost_getUtxos sdk api address = Err e.
Proof. intros H1 H2. unfold Blockfrost_getUtxos. by rewrite H1; simpl; rewrite H2. Qed.

(** ... and so is every failure of [getUtxos] by [getRewardAccounts]. *)
Lemma Blockfrost_getRewardAccounts_passes_failure address e :
  Blockfrost_getUtxos sdk api address = Err e ->
  Blockfrost_getRewardAccounts sdk api isTestnet address = Err e.
Proof. intros H. unfold Blockfrost_getRewardAccounts. by rewrite H. Qed.
End BlockfrostFacts.

(** C3. [getAddresses] and [getRewardAccountInfo] turn a provider failure
    into an empty answer, but [getUtxos] and [getRewardAccounts] do not: they
    raise on text that does not decode, and they pass a provider failure on. *)
Theorem Blockfrost_lookups_raise :
  (forall api isTestnet,
     Blockfrost_getRewardAccounts demoSdk api isTestnet "not-an-address"
     = Err (InvalidAddress "not-an-address"))
  /\ Blockfrost_getUtxos demoSdk failingApi "addr_S" = Err (ProviderError "404")
  /\ Blockfrost_getRewardAccounts demoSdk failingApi true "addr_S"
     = Err (ProviderError "404")
  /\ Blockfrost_getAddresses failingApi "stake_K1" = Ok []
  /\ Blockfrost_getRewardAccountInfo demoSdk failingApi "stake_K1" = Ok None.
Proof. by split_and!. Qed.

(** ** Instances *)

Lemma discover_utxos_unique_witness :
  exists w,
    ClusteredWallet.discover demoSdk overlapping noMonitor 10 "addr_S" tt = Done (w, tt)
    /\ NoDup (map Utxo.key (ClusteredWallet.getUTXOs w))
    /\ map Utxo.key (ClusteredWallet.getUTXOs w)
       = [("tx1", 0); ("tx1", 1); ("tx2", 0); ("tx3", 0)].
Proof.
  eexists. split; [vm_compute; reflexivity|]. split; [|reflexivity].
  eapply (discover_utxos_unique demoSdk overlapping noMonitor 10 "addr_S" tt).
  vm_compute; reflexivity.
Defined.

Lemma discover_balance_coherent_witness :
  exists w,
    ClusteredWallet.discover demoSdk overlapping noMonitor 10 "addr_S" tt = Done (w, tt)
    /\ Cardano.coins (ClusteredWallet.getBalance w)
       = Zsum (map Cardano.coins (map Utxo.value (ClusteredWallet.getUTXOs w)))
    /\ Cardano.coins (ClusteredWallet.getBalance w) = 1006.
Proof.
  eexists. split; [vm_compute; reflexivity|]. split; [|reflexivity].
  eapply (discover_balance_coherent demoSdk overlapping noMonitor 10 "addr_S" tt).
  vm_compute; reflexivity.
Defined.

Lemma discover_absent_reward_info_witness :
  IBlockchainDataSource.getRewardAccountInfo overlapping "stake_K1" = Ok None
  /\ exists w,
       ClusteredWallet.discover demoSdk overlapping noMonitor 10 "addr_S" tt = Done (w, tt)
       /\ map RewardAccountInfo.stakingCredential (ClusteredWallet.getRewardAccounts w)
          = ["stake_K2"]
       /\ ClusteredWallet.getRewards w = 50
       /\ map AddressInfo.address (ClusteredWallet.getAddresses w)
          = ["addr_S"; "addr_T"; "ent_V"].
Proof.
  split; [reflexivity|].
  pose (st := {| ClusteredWallet.clusterAddresses := ["addr_S"; "addr_T"; "ent_V"];
                 ClusteredWallet.clusterRewardAccounts := ["stake_K1"; "stake_K2"];
                 ClusteredWallet.addressToExplore := [] |}).
  destruct (discover_absent_reward_info demoSdk overlapping 10 "addr_S" tt st
              (match ClusteredWallet.collectAddressInfo demoSdk overlapping
                       (ClusteredWallet.clusterAddresses st) [] [] tt with
               | Done (collected, _) => collected
               | _ => ([], [])
               end))
    as (w & Hw & Haccounts & _ & Hrewards & _).
  - vm_compute; reflexivity.
  - vm_compute; reflexivity.
  - intros r _. by eexists.
  - exists w. split; [exact Hw|]. rewrite Hrewards, Haccounts.
    vm_compute in Hw. by simplify_eq.
Defined.

(** ** The scenario of the specification *)

(** [S] and [T] share [K1]; 600 and 400 coins; 50 in rewards. *)
Example discover_sharedStake :
  exists w,
    ClusteredWallet.discover demoSdk sharedStake noMonitor 10 "addr_S" tt = Done (w, tt)
    /\ map AddressInfo.address (ClusteredWallet.getAddresses w) = ["addr_S"; "addr_T"]
    /\ map RewardAccountInfo.stakingCredential (ClusteredWallet.getRewardAccounts w)
       = ["stake_K1"]
    /\ Cardano.coins (ClusteredWallet.getBalance w) = 1000
    /\ ClusteredWallet.getRewards w = 50.
Proof. eexists. split; [vm_compute; reflexivity|]. by split_and!. Qed.

(** * Further properties of the code *)

(** ** [_popFromSet] and [_insertRangeInSet] *)

Lemma insertRange_app (l1 l2 s : list string) :
  ClusteredWallet._insertRangeInSet (l1 ++ l2) s
  = ClusteredWallet._insertRangeInSet l2 (ClusteredWallet._insertRangeInSet l1 s).
Proof. unfold ClusteredWallet._insertRangeInSet. apply fold_left_app. Qed.

Lemma insertRange_fresh (array : list string) : forall s,
  ClusteredWallet._insertRangeInSet array s = s ++ freshAccounts s array.
Proof.
  induction array as [|v array IH]; intros s; simpl; [by rewrite app_nil_r|].
  change (fold_left _ array (JsSet.add v s))
    with (ClusteredWallet._insertRangeInSet array (JsSet.add v s)).
  rewrite IH. unfold JsSet.add. destruct (JsSet.has v s) eqn:E; [done|].
  by rewrite <- app_assoc.
Qed.

Lemma insertRange_absorbs (array : list string) : forall s,
  (forall x, x ∈ array -> x ∈ s) -> ClusteredWallet._insertRangeInSet array s = s.
Proof.
  induction array as [|v array IH]; intros s Hsub; simpl; [done|].
  change (fold_left _ array (JsSet.add v s))
    with (ClusteredWallet._insertRangeInSet array (JsSet.add v s)).
  assert (Hv : JsSet.has v s = true) by (apply has_true, Hsub, elem_of_cons; by left).
  unfold JsSet.add. rewrite Hv. apply IH. intros x Hx. apply Hsub, elem_of_cons. by right.
Qed.

(** X1. [_insertRangeInSet] only appends: the elements already in the set keep
    their places, the result holds exactly the old elements and those of the
    array, no element of a duplicate-free set is doubled, and inserting the
    same array once more changes nothing. *)
Theorem insertRangeInSet_extends (array s : list string) :
  NoDup s ->
  s `prefix_of` ClusteredWallet._insertRangeInSet array s
  /\ NoDup (ClusteredWallet._insertRangeInSet array s)
  /\ (forall x, x ∈ ClusteredWallet._insertRangeInSet array s <-> x ∈ array \/ x ∈ s)
  /\ ClusteredWallet._insertRangeInSet array (ClusteredWallet._insertRangeInSet array s)
     = ClusteredWallet._insertRangeInSet array s.
Proof.
  intros Hs. split_and!.
  - rewrite insertRange_fresh. by eexists.
  - by apply NoDup_insertRange.
  - apply elem_of_insertRange.
  - apply insertRange_absorbs. intros x Hx. apply elem_of_insertRange. by left.
Qed.

(** X2. On a set that is not empty [_popFromSet] returns the element inserted
    first and leaves the others, in their order: the popped element is gone
    and the size has gone down by one. *)
Theorem popFromSet_removes_first (set : list string) :
  NoDup set -> JsSet.size set ≠ 0%nat ->
  exists value rest,
    set = value :: rest
    /\ ClusteredWallet._popFromSet set = (Some value, rest)
    /\ (value ∉ rest)
    /\ JsSet.size set = S (JsSet.size rest).
Proof.
  intros Hnd Hsize. destruct set as [|value rest]; [done|].
  apply NoDup_cons in Hnd as [Hnot Hnd]. exists value, rest. split_and!; try done.
  simpl. f_equal. unfold JsSet.delete. rewrite filter_cons_False by (intros ?; done).
  induction rest as [|y rest IH]; [done|].
  apply not_elem_of_cons in Hnot as [Hne Hnot]. apply NoDup_cons in Hnd as [_ Hnd].
  rewrite filter_cons_True by done. f_equal. by apply IH.
Qed.

(** ** The frontier loop, exactly *)

Section FrontierExact.
Context {St : Type}.
Context (ds : IBlockchainDataSource.t).
Context (mon : option (ProgressMonitor St)).

Lemma explore_exact ras : forall st s st' s',
  ClusteredWallet.exploreRewardAccounts ds mon ras st s = Done (st', s') ->
  let fresh := freshAccounts (ClusteredWallet.clusterRewardAccounts st) ras in
  let found := concat (map (addressesListed ds) fresh) in
  ClusteredWallet.clusterRewardAccounts st'
  = ClusteredWallet.clusterRewardAccounts st ++ fresh
  /\ ClusteredWallet.clusterAddresses st'
     = ClusteredWallet._insertRangeInSet found (ClusteredWallet.clusterAddresses st)
  /\ ClusteredWallet.addressToExplore st'
     = ClusteredWallet._insertRangeInSet found (ClusteredWallet.addressToExplore st).
Proof.
  induction ras as [|r0 ras IH]; intros st s st' s' H; simpl in H.
  - apply ret_Done in H as [-> ->]. simpl. by rewrite app_nil_r.
  - simpl. destruct (JsSet.has r0 (ClusteredWallet.clusterRewardAccounts st)) eqn:Hhas.
    + by apply IH in H.
    + apply bind_Done in H as ([] & s1 & _ & H).
      apply bind_Done in H as (l0 & s2 & Hl0 & H).
      apply await_Done in Hl0 as [Hl0 ->].
      apply bind_Done in H as ([] & s3 & _ & H).
      apply IH in H as (E1 & E2 & E3). simpl in E1, E2, E3.
      rewrite E1, E2, E3. simpl. rewrite !insertRange_app.
      replace (addressesListed ds r0) with l0
        by (unfold addressesListed; by rewrite Hl0).
      split_and!; try done.
      unfold JsSet.add at 1. rewrite Hhas. by rewrite <- app_assoc.
Qed.

Lemma loop_seed_exact fuel seed s st s' :
  ClusteredWallet.frontierLoop ds mon fuel (seeded seed) s = Done (st, s') ->
  exists ras s1 st1,
    IBlockchainDataSource.getRewardAccounts ds seed = Ok ras
    /\ notify mon ("Getting reward accounts for " +:+ seed +:+ ".") s = Done (tt, s1)
    /\ ClusteredWallet.exploreRewardAccounts ds mon ras noSets s1 = Done (st1, s')
    /\ st = drained st1.
Proof.
  destruct fuel as [|fuel]; [done|]. rewrite loop_seed. intros H.
  apply bind_Done in H as ([] & s1 & Hnote & H).
  apply bind_Done in H as (ras & s2 & Hras & H).
  apply await_Done in Hras as [Hras ->].
  apply bind_Done in H as (st1 & s3 & Hex & H).
  destruct (explore_Done _ _ _ _ _ _ _ Hex) as (I1 & _).
  destruct (0 <? JsSet.size (ClusteredWallet.addressToExplore st1))%nat eqn:Hsize.
  - apply loop_drains_Done in H as [-> ->]; [by exists ras, s1, st1|].
    intros a Ha. by rewrite <- I1.
  - apply ret_Done in H as [-> ->]. exists ras, s1, st1. split_and!; try done.
    apply Nat.ltb_ge in Hsize. destruct st1 as [c v f]. simpl in *.
    destruct f; [done|simpl in Hsize; lia].
Qed.
End FrontierExact.

(** ** A finished discovery, exactly *)

Section DiscoverExact.
Context {St : Type}.
Context (sdk : CardanoSdk).
Context (ds : IBlockchainDataSource.t).
Context (mon : option (ProgressMonitor St)).

Lemma of_array_fresh (ras : list string) : JsSet.of_array ras = freshAccounts [] ras.
Proof. apply (insertRange_fresh ras []). Qed.

Lemma discover_sets_exact fuel seed s w s' :
  ClusteredWallet.discover sdk ds mon fuel seed s = Done (w, s') ->
  exists ras,
    IBlockchainDataSource.getRewardAccounts ds seed = Ok ras
    /\ map AddressInfo.address (ClusteredWallet.getAddresses w)
       = ClusteredWallet._insertRangeInSet
           (concat (map (addressesListed ds) (JsSet.of_array ras))) []
    /\ ClusteredWallet.getRewardAccounts w = omap (retained ds) (JsSet.of_array ras).
Proof.
  intros H.
  apply discover_Done in H as (st & s1 & s2 & infos & Hloop & _ & Haddr & _ & _ & ->).
  apply loop_seed_exact in Hloop as (ras & s3 & st1 & Hras & _ & Hex & ->).
  apply explore_exact in Hex as (E1 & E2 & _). simpl in E1, E2, Haddr.
  exists ras. unfold ClusteredWallet.getAddresses, ClusteredWallet.getRewardAccounts.
  simpl. by rewrite Haddr, E1, E2, of_array_fresh.
Qed.

Lemma collectAddressInfo_resolved addresses : forall us infos (s : St) us' infos' s',
  ClusteredWallet.collectAddressInfo sdk ds addresses us infos s
    = Done ((us', infos'), s') ->
  exists news,
    infos' = infos ++ news
    /\ map AddressInfo.address news = addresses
    /\ Forall (resolvedInfo sdk ds) news.
Proof.
  induction addresses as [|a addresses IH]; intros us infos s us' infos' s' H; simpl in H.
  - apply ret_Done in H as [H ->]. simplify_eq. exists []. by rewrite app_nil_r.
  - apply bind_Done in H as (utxos & s1 & H1 & H). apply await_Done in H1 as [H1 ->].
    apply bind_Done in H as (pc & s2 & H2 & H). apply await_Done in H2 as [H2 ->].
    apply bind_Done in H as (sc & s3 & H3 & H). apply await_Done in H3 as [H3 ->].
    apply IH in H as (news & -> & <- & Hall).
    eexists (_ :: news). split_and!; [by rewrite <- app_assoc|done|].
    constructor; [|done]. by split_and!.
Qed.

Lemma collectAddressInfo_rejects a e addresses : forall us infos (s : St),
  a ∈ addresses -> getPaymentCredential sdk a = Err e ->
  exists e', ClusteredWallet.collectAddressInfo sdk ds addresses us infos s = Throw e'.
Proof.
  induction addresses as [|b addresses IH]; intros us infos s Hin Hbad.
  - by apply elem_of_nil in Hin.
  - simpl. unfold bind, await.
    destruct (IBlockchainDataSource.getUtxos ds b) as [utxos|e1]; [|by eexists].
    destruct (getPaymentCredential sdk b) as [pc|e2] eqn:Hpc; [|by eexists].
    destruct (getStakingCredential sdk b _) as [sc|e3]; [|by eexists].
    apply IH; [|done]. apply elem_of_cons in Hin as [->|Hin]; [congruence|done].
Qed.

Lemma loop_seed_rejects fuel seed e (s : St) :
  IBlockchainDataSource.getRewardAccounts ds seed = Err e ->
  ClusteredWallet.frontierLoop ds None (S fuel) (seeded seed) s = Throw e.
Proof. intros H. rewrite loop_seed. unfold bind, notify, await. by rewrite H. Qed.
End DiscoverExact.


(** X5. No address occurs twice among the [AddressInfo]s of the wallet. *)
Theorem discover_addresses_distinct {St} sdk ds (mon : option (ProgressMonitor St))
    fuel seed s w s' :
  ClusteredWallet.discover sdk ds mon fuel seed s = Done (w, s') ->
  NoDup (map AddressInfo.address (ClusteredWallet.getAddresses w)).
Proof.
  intros H. apply discover_sets_exact in H as (ras & _ & -> & _).
  apply NoDup_insertRange. constructor.
Qed.

(** X7. Every [AddressInfo] of the wallet carries the explorer's outputs for
    its address, their coalesced value as balance, and the payment and
    staking credentials the resolver derives from the address, the staking
    credential under the explorer's network id. *)
Theorem discover_infos_resolved {St} sdk ds (mon : option (ProgressMonitor St))
    fuel seed s w s' :
  ClusteredWallet.discover sdk ds mon fuel seed s = Done (w, s') ->
  Forall (resolvedInfo sdk ds) (ClusteredWallet.getAddresses w).
Proof.
  intros H.
  apply discover_Done in H as (st & s1 & s2 & infos & _ & Hcol & _ & _ & _ & ->).
  apply collectAddressInfo_resolved in Hcol as (news & E & _ & Hall).
  simpl in E. by subst.
Qed.

(** X6. Every address of the wallet is one shared-credential step away from
    the seed, hence reachable from it. *)
Theorem discover_addresses_reachable {St} sdk ds (mon : option (ProgressMonitor St))
    fuel seed s w s' a :
  ClusteredWallet.discover sdk ds mon fuel seed s = Done (w, s') ->
  a ∈ map AddressInfo.address (ClusteredWallet.getAddresses w) ->
  link ds seed a /\ reachable ds seed a.
Proof.
  intros H Ha. apply discover_cluster_is_one_step in H as [H _].
  apply H in Ha. split; [done|by apply rtc_once].
Qed.

(** X3. With [fuelBound] iterations allowed the loop of [discover] comes to
    its end, whatever the explorer answers and whatever the monitor does: the
    run resolves with a wallet or rejects. *)
Theorem discover_ends_within_bound {St} sdk ds (mon : option (ProgressMonitor St))
    fuel seed s :
  (fuelBound ds seed <= fuel)%nat ->
  (exists w s', ClusteredWallet.discover sdk ds mon fuel seed s = Done (w, s'))
  \/ (exists e, ClusteredWallet.discover sdk ds mon fuel seed s = Throw e).
Proof.
  intros Hfuel.
  destruct (discover_settles sdk ds mon fuel seed Hfuel s) as [[[w s'] E]|[e E]];
    [left|right]; eauto.
Qed.

(** X11. One address without a payment credential among the addresses listed
    for the seed's reward accounts makes the whole discovery reject. *)
Theorem discover_rejects_unresolvable_address {St} sdk ds
    (mon : option (ProgressMonitor St)) fuel seed s a e :
  (fuelBound ds seed <= fuel)%nat ->
  link ds seed a ->
  getPaymentCredential sdk a = Err e ->
  exists e', ClusteredWallet.discover sdk ds mon fuel seed s = Throw e'.
Proof.
  intros Hfuel Hlink Hbad.
  destruct (discover_settles sdk ds mon fuel seed Hfuel s) as [[[w s'] E]|[e' E]];
    [exfalso|by eexists].
  apply discover_Done in E as (st & s1 & s2 & infos & Hloop & Hcol & _).
  apply loop_seed_Done in Hloop as (ras & Hras & Hcl & _).
  assert (Ha : a ∈ ClusteredWallet.clusterAddresses st).
  { apply Hcl. destruct Hlink as (ras' & r & l & Hras' & ? & ? & ?).
    assert (ras' = ras) as -> by congruence. by exists r, l. }
  destruct (collectAddressInfo_rejects sdk ds a e _ [] [] s2 Ha Hbad) as [e' He'].
  congruence.
Qed.

(** X10. Without a monitor, a rejected reward-account lookup for the seed
    rejects the discovery with the lookup's own exception. *)
Theorem discover_rejects_with_seed_lookup {St} sdk ds fuel seed (s : St) e :
  IBlockchainDataSource.getRewardAccounts ds seed = Err e ->
  ClusteredWallet.discover sdk ds None (S fuel) seed s = Throw e.
Proof.
  intros H. unfold ClusteredWallet.discover, bind, notify. cbv zeta.
  pose proof (loop_seed_rejects ds fuel seed e s H) as Hloop.
  unfold seeded in Hloop. by rewrite Hloop.
Qed.

(** X12. Without a monitor, a seed for which the explorer names no reward
    account yields the empty wallet: no address, no output, no reward
    account, a zero balance and zero rewards. *)
Theorem discover_seed_without_reward_accounts {St} sdk ds fuel seed (s : St) :
  IBlockchainDataSource.getRewardAccounts ds seed = Ok [] ->
  exists w,
    ClusteredWallet.discover sdk ds None (S fuel) seed s = Done (w, s)
    /\ ClusteredWallet.getAddresses w = []
    /\ ClusteredWallet.getUTXOs w = []
    /\ ClusteredWallet.getRewardAccounts w = []
    /\ ClusteredWallet.getBalance w = zeroValue
    /\ ClusteredWallet.getRewards w = 0.
Proof.
  intros H. eexists. split.
  { unfold ClusteredWallet.discover, bind, notify. cbv zeta.
    pose proof (loop_seed (St:=St) ds None fuel seed) as Hloop. unfold seeded in Hloop.
    rewrite Hloop. unfold bind, notify, await. rewrite H. reflexivity. }
  by split_and!.
Qed.

(** ** What the console monitor prints *)

Lemma consoleProgressMonitor_neverThrows : neverThrows consoleProgressMonitor.
Proof. intros message console. by eexists. Qed.

Lemma notify_console message console console' :
  notify (Some consoleProgressMonitor) message console = Done (tt, console') ->
  console' = console ++ [message].
Proof. unfold notify. simpl. intros H. by simplify_eq. Qed.

Lemma explore_console ds ras : forall st console st' console',
  ClusteredWallet.exploreRewardAccounts ds (Some consoleProgressMonitor) ras st console
    = Done (st', console') ->
  console' = console
             ++ exploreMessages ds
                  (freshAccounts (ClusteredWallet.clusterRewardAccounts st) ras)
                  (ClusteredWallet.clusterAddresses st).
Proof.
  induction ras as [|r0 ras IH]; intros st console st' console' H; simpl in H.
  - apply ret_Done in H as [-> ->]. simpl. by rewrite app_nil_r.
  - simpl. destruct (JsSet.has r0 (ClusteredWallet.clusterRewardAccounts st)) eqn:Hhas.
    + by apply IH in H.
    + apply bind_Done in H as ([] & s1 & Hn1 & H). apply notify_console in Hn1 as ->.
      apply bind_Done in H as (l0 & s2 & Hl0 & H).
      apply await_Done in Hl0 as [Hl0 ->].
      apply bind_Done in H as ([] & s3 & Hn2 & H). apply notify_console in Hn2 as ->.
      apply IH in H. simpl in H. rewrite H. simpl.
      replace (addressesListed ds r0) with l0
        by (unfold addressesListed; by rewrite Hl0).
      by rewrite <- !app_assoc.
Qed.

(** X13. Run with the console monitor, a successful discovery prints the
    start line, one line for the seed's reward-account lookup, two lines for
    every reward account searched (the second with the number of addresses
    the search added to the cluster), and the completion line; and it returns
    the wallet that the discovery without a monitor returns. *)
Theorem discover_console_lines sdk ds fuel seed console w console' :
  ClusteredWallet.discover sdk ds (Some consoleProgressMonitor) fuel seed console
    = Done (w, console') ->
  ClusteredWallet.discover sdk ds noMonitor fuel seed tt = Done (w, tt)
  /\ exists ras,
       IBlockchainDataSource.getRewardAccounts ds seed = Ok ras
       /\ console'
          = console
            ++ ["Starting cluster discovery from seed " +:+ seed +:+ ".";
                "Getting reward accounts for " +:+ seed +:+ "."]
            ++ exploreMessages ds (JsSet.of_array ras) []
            ++ ["Cluster discovery complete."].
Proof.
  intros H. split.
  - pose proof (sameVerdict_discover (St2:=unit) consoleProgressMonitor
                  consoleProgressMonitor_neverThrows sdk ds fuel seed console tt) as E.
    rewrite H in E. simpl in E. unfold noMonitor.
    destruct (ClusteredWallet.discover sdk ds None fuel seed tt) as [[w' []]| | |];
      simpl in E; by simplify_eq.
  - unfold ClusteredWallet.discover in H.
    apply bind_Done in H as ([] & s1 & Hn1 & H). apply notify_console in Hn1 as ->.
    apply bind_Done in H as (st & s2 & Hloop & H).
    apply bind_Done in H as ([us infos] & s3 & Hcol & H).
    apply bind_Done in H as (rinfos & s4 & Hrew & H).
    apply bind_Done in H as ([] & s5 & Hn2 & H). apply notify_console in Hn2 as ->.
    apply ret_Done in H as [_ ->].
    apply collectAddressInfo_Done in Hcol as (-> & _).
    apply collectRewardAccountInfo_Done in Hrew as (-> & _).
    apply loop_seed_exact in Hloop as (ras & s6 & st1 & Hras & Hn3 & Hex & _).
    apply notify_console in Hn3 as ->. apply explore_console in Hex as ->.
    exists ras. split; [done|]. simpl. rewrite of_array_fresh.
    by rewrite <- !app_assoc.
Qed.

(** ** The final filter *)

Lemma filter_from_distinct rest : forall pre,
  NoDup (map Utxo.key (pre ++ rest)) ->
  filter_from (fun value index => ClusteredWallet.firstWithKey value index (pre ++ rest))
    (Z.of_nat (length pre)) rest = rest.
Proof.
  induction rest as [|v rest IH]; intros pre Hnd; simpl; [done|].
  assert (E : ClusteredWallet.firstWithKey v (Z.of_nat (length pre)) (pre ++ v :: rest)
              = true).
  { apply firstWithKey_spec. rewrite map_app in Hnd. apply NoDup_app in Hnd as (_ & Hd & _).
    intros Hin. apply (Hd _ Hin). simpl. apply elem_of_cons. by left. }
  rewrite E. f_equal.
  specialize (IH (pre ++ [v])). rewrite <- app_assoc, length_app in IH. simpl in IH.
  replace (Z.of_nat (length pre + 1)) with (Z.of_nat (length pre) + 1) in IH by lia.
  by apply IH.
Qed.

Lemma filter_from_first rest : forall pre0 u,
  u ∈ filter_from
        (fun value index => ClusteredWallet.firstWithKey value index (pre0 ++ rest))
        (Z.of_nat (length pre0)) rest ->
  exists pre post,
    rest = pre ++ u :: post /\ Utxo.key u ∉ map Utxo.key (pre0 ++ pre).
Proof.
  induction rest as [|v rest IH]; intros pre0 u; simpl; [by intros ?%elem_of_nil|].
  specialize (IH (pre0 ++ [v]) u). rewrite <- app_assoc, length_app in IH. simpl in IH.
  replace (Z.of_nat (length pre0 + 1)) with (Z.of_nat (length pre0) + 1) in IH by lia.
  assert (Hlater :
    u ∈ filter_from
          (fun value index => ClusteredWallet.firstWithKey value index (pre0 ++ v :: rest))
          (Z.of_nat (length pre0) + 1) rest ->
    exists pre post,
      v :: rest = pre ++ u :: post /\ Utxo.key u ∉ map Utxo.key (pre0 ++ pre)).
  { intros Hin. apply IH in Hin as (pre & post & -> & Hnot).
    exists (v :: pre), post. split; [done|]. by rewrite <- app_assoc in Hnot. }
  destruct (ClusteredWallet.firstWithKey v _ _) eqn:E; [|done].
  intros [->|Hin]%elem_of_cons; [|by apply Hlater].
  exists [], rest. split; [done|]. rewrite app_nil_r. by apply firstWithKey_spec in E.
Qed.

Lemma array_filter_distinct (clusterUtxos : list Utxo.t) :
  NoDup (map Utxo.key clusterUtxos) ->
  array_filter ClusteredWallet.firstWithKey clusterUtxos = clusterUtxos.
Proof. intros Hnd. by apply (filter_from_distinct clusterUtxos []). Qed.

(** X8. The outputs of the wallet are first occurrences: each one stands in
    the list of all fetched outputs at a place before which no output has its
    (transaction hash, output index); and outputs fetched once are all kept,
    in the order they were fetched. *)
Theorem discover_utxos_first_fetched {St} sdk ds (mon : option (ProgressMonitor St))
    fuel seed s w s' :
  ClusteredWallet.discover sdk ds mon fuel seed s = Done (w, s') ->
  let fetched := concat (map AddressInfo.utxos (ClusteredWallet.getAddresses w)) in
  (forall u, u ∈ ClusteredWallet.getUTXOs w ->
     exists pre post, fetched = pre ++ u :: post /\ Utxo.key u ∉ map Utxo.key pre)
  /\ (NoDup (map Utxo.key fetched) -> ClusteredWallet.getUTXOs w = fetched).
Proof.
  intros H fetched.
  apply discover_Done in H as (st & s1 & s2 & infos & _ & _ & _ & _ & _ & ->).
  subst fetched. unfold ClusteredWallet.getUTXOs, ClusteredWallet.getAddresses. simpl.
  split.
  - intros u Hu. by apply (filter_from_first _ []) in Hu.
  - apply array_filter_distinct.
Qed.

(** ** Balances per address and in total *)

Lemma Zsum_app (l1 l2 : list Z) : Zsum (l1 ++ l2) = Zsum l1 + Zsum l2.
Proof. induction l1 as [|x l1 IH]; simpl; lia. Qed.

Lemma Zsum_concat_infos ds (f : Cardano.Value -> Z) (infos : list AddressInfo.t) :
  (forall l, f (coalesceValueQuantities l) = Zsum (map f l)) ->
  Forall (faithfulInfo ds) infos ->
  Zsum (map f (map Utxo.value (concat (map AddressInfo.utxos infos))))
  = Zsum (map (fun info => f (AddressInfo.balance info)) infos).
Proof.
  intros Hf. induction 1 as [|info infos [_ Hbal] _ IH]; simpl; [done|].
  rewrite !map_app, Zsum_app, IH, Hbal, Hf. done.
Qed.

(** X9. When no output was fetched twice, the balance of the wallet is the
    sum of the balances of its [AddressInfo]s, in coins and in every asset. *)
Theorem discover_balance_sums_addresses {St} sdk ds (mon : option (ProgressMonitor St))
    fuel seed s w s' :
  ClusteredWallet.discover sdk ds mon fuel seed s = Done (w, s') ->
  NoDup (map Utxo.key (concat (map AddressInfo.utxos (ClusteredWallet.getAddresses w)))) ->
  Cardano.coins (ClusteredWallet.getBalance w)
  = Zsum (map (fun info => Cardano.coins (AddressInfo.balance info))
              (ClusteredWallet.getAddresses w))
  /\ forall asset,
       Cardano.quantityOf asset (ClusteredWallet.getBalance w)
       = Zsum (map (fun info => Cardano.quantityOf asset (AddressInfo.balance info))
                   (ClusteredWallet.getAddresses w)).
Proof.
  intros H.
  apply discover_Done in H as (st & s1 & s2 & infos & _ & _ & _ & Hall & _ & ->).
  unfold ClusteredWallet.getBalance, ClusteredWallet.getAddresses. simpl. intros Hnd.
  rewrite array_filter_distinct by done.
  destruct (coalesceValueQuantities_sums
              (map Utxo.value (concat (map AddressInfo.utxos infos)))) as [Hc Hq].
  split.
  - rewrite Hc. apply (Zsum_concat_infos ds Cardano.coins); [|done].
    intros l. apply coalesceValueQuantities_sums.
  - intros asset. rewrite Hq.
    apply (Zsum_concat_infos ds (Cardano.quantityOf asset)); [|done].
    intros l. apply coalesceValueQuantities_sums.
Qed.

(** ** The credential resolver *)

Lemma getPaymentCredential_resolves sdk address addr credential :
  fromBech32 sdk address = Some addr -> paymentPart addr = Some credential ->
  getPaymentCredential sdk address
  = Ok (bech32_encode sdk VERIFICATION_KEY_HASH_PREFIX (Cardano.hash credential)
          MAX_BECH32_LENGTH_LIMIT).
Proof.
  unfold getPaymentCredential, decodeAddress, paymentPart. intros -> H. simpl.
  destruct (Cardano.asBase addr); simplify_eq; [done|].
  destruct (Cardano.asEnterprise addr); simpl in *; by simplify_eq.
Qed.

(** X14. The payment credential depends on the address only through the hash
    of its payment part: a base and an enterprise address, a key hash and a
    script hash, any stake part, resolve to one and the same credential when
    the hashes agree. *)
Theorem getPaymentCredential_only_hash sdk a1 a2 addr1 addr2 c1 c2 :
  fromBech32 sdk a1 = Some addr1 -> fromBech32 sdk a2 = Some addr2 ->
  paymentPart addr1 = Some c1 -> paymentPart addr2 = Some c2 ->
  Cardano.hash c1 = Cardano.hash c2 ->
  exists credential,
    getPaymentCredential sdk a1 = Ok credential
    /\ getPaymentCredential sdk a2 = Ok credential.
Proof.
  intros D1 D2 P1 P2 Hhash. eexists. split.
  - by apply (getPaymentCredential_resolves sdk a1 addr1 c1).
  - rewrite Hhash. by apply (getPaymentCredential_resolves sdk a2 addr2 c2).
Qed.

(** X15. Where the payment credential resolves, the staking credential
    resolves too: it is the reward address of the stake part under the given
    network id for a base address, and absent for any other address. *)
Theorem getStakingCredential_follows_payment sdk address networkId credential :
  getPaymentCredential sdk address = Ok credential ->
  exists addr,
    fromBech32 sdk address = Some addr
    /\ getStakingCredential sdk address networkId
       = Ok ((fun base => rewardAddressToBech32 sdk networkId
                            (Cardano.baseStakeCredential base))
             <$> Cardano.asBase addr).
Proof.
  unfold getPaymentCredential, getStakingCredential, decodeAddress.
  destruct (fromBech32 sdk address) as [addr|]; [|done]. simpl. intros _.
  exists addr. split; [done|]. by destruct (Cardano.asBase addr).
Qed.

(** X16. [getStakingCredential] throws on text that does not decode and on
    nothing else; a decoded address without payment part, on which
    [getPaymentCredential] throws, has an absent staking credential. *)
Theorem getStakingCredential_rejects_only_undecodable sdk address networkId :
  ((exists e, getStakingCredential sdk address networkId = Err e)
   <-> fromBech32 sdk address = None)
  /\ forall addr,
       fromBech32 sdk address = Some addr -> paymentPart addr = None ->
       getStakingCredential sdk address networkId = Ok None
       /\ exists e, getPaymentCredential sdk address = Err e.
Proof.
  unfold getStakingCredential, getPaymentCredential, decodeAddress, paymentPart.
  destruct (fromBech32 sdk address) as [addr|]; simpl; split.
  - destruct (Cardano.asBase addr); split; try done; by intros [e ?].
  - intros ? [= <-] H. destruct (Cardano.asBase addr); [done|].
    destruct (Cardano.asEnterprise addr); [done|]. split; [done|by eexists].
  - split; [done|]. by eexists.
  - done.
Qed.

(** ** The Blockfrost adapter *)

Section MapResultFacts.
Context {A B : Type} (f : A -> result B).

Lemma map_result_Ok (l : list A) : forall ys,
  map_result f l = Ok ys -> Forall2 (fun x y => f x = Ok y) l ys.
Proof.
  induction l as [|x l IH]; intros ys H; simpl in H.
  - simplify_eq. constructor.
  - destruct (f x) as [y|] eqn:Hx; simpl in H; [|done].
    destruct (map_result f l) as [ys'|]; simpl in H; [|done].
    simplify_eq. constructor; [done|]. by apply IH.
Qed.

Lemma map_result_Err (l : list A) x e :
  x ∈ l -> f x = Err e -> exists e', map_result f l = Err e'.
Proof.
  induction l as [|y l IH]; intros Hin Hx; [by apply elem_of_nil in Hin|]. simpl.
  destruct (f y) as [b|e1] eqn:Hy; simpl; [|by eexists].
  apply elem_of_cons in Hin as [->|Hin]; [congruence|].
  destruct (IH Hin Hx) as [e' ->]. by eexists.
Qed.
End MapResultFacts.

Section AdapterFacts.
Context (sdk : CardanoSdk) (api : Blockfrost.API) (isTestnet : bool).

Lemma toUtxo_Ok entry utxo :
  toUtxo sdk entry = Ok utxo ->
  walletOutput utxo = providerOutput entry
  /\ exists amount,
       lovelaceEntry (Blockfrost.amount entry) = Some amount
       /\ BigInt sdk (Blockfrost.quantity amount) = Ok (Cardano.coins (Utxo.value utxo)).
Proof.
  unfold toUtxo, lovelaceEntry.
  destruct (List.find _ (Blockfrost.amount entry)) as [amount|]; simpl; [|done].
  destruct (BigInt sdk (Blockfrost.quantity amount)) as [coins|] eqn:Hcoins; simpl; [|done].
  destruct (map_result _ _) as [assets|]; simpl; [|done].
  intros H. simplify_eq. split; [done|]. by exists amount.
Qed.

Lemma of_array_spec (l : list string) :
  NoDup (JsSet.of_array l) /\ forall x, x ∈ JsSet.of_array l <-> x ∈ l.
Proof.
  split.
  - apply (NoDup_insertRange l []). constructor.
  - intros x. change (JsSet.of_array l) with (ClusteredWallet._insertRangeInSet l []).
    rewrite elem_of_insertRange, elem_of_nil. tauto.
Qed.

Lemma getRewardAccountInfo_Some rewardAccount info :
  Blockfrost_getRewardAccountInfo sdk api rewardAccount = Ok (Some info) ->
  RewardAccountInfo.stakingCredential info = rewardAccount
  /\ exists account,
       Blockfrost.accounts api rewardAccount = Ok account
       /\ BigInt sdk (Blockfrost.withdrawable_amount account)
          = Ok (RewardAccountInfo.rewards info)
       /\ BigInt sdk (Blockfrost.controlled_amount account)
          = Ok (RewardAccountInfo.stakedAmount info)
       /\ RewardAccountInfo.poolId info = Blockfrost.pool_id account.
Proof.
  unfold Blockfrost_getRewardAccountInfo.
  destruct (Blockfrost.accounts api rewardAccount) as [account|]; [|done].
  destruct (BigInt sdk (Blockfrost.withdrawable_amount account)) as [r|] eqn:Hr;
    simpl; [|done].
  destruct (BigInt sdk (Blockfrost.controlled_amount account)) as [a|] eqn:Ha;
    simpl; [|done].
  intros H. simplify_eq. split; [done|]. by exists account.
Qed.
End AdapterFacts.

(** X17. [getUtxos] asks the provider for the payment credential, not for the
    address, and [getRewardAccounts] builds on [getUtxos]: two addresses
    whose payment parts have the same hash get the same answers. *)
Theorem Blockfrost_lookups_by_payment_hash sdk api isTestnet a1 a2 addr1 addr2 c1 c2 :
  fromBech32 sdk a1 = Some addr1 -> fromBech32 sdk a2 = Some addr2 ->
  paymentPart addr1 = Some c1 -> paymentPart addr2 = Some c2 ->
  Cardano.hash c1 = Cardano.hash c2 ->
  Blockfrost_getUtxos sdk api a1 = Blockfrost_getUtxos sdk api a2
  /\ Blockfrost_getRewardAccounts sdk api isTestnet a1
     = Blockfrost_getRewardAccounts sdk api isTestnet a2.
Proof.
  intros D1 D2 P1 P2 Hhash.
  assert (E : Blockfrost_getUtxos sdk api a1 = Blockfrost_getUtxos sdk api a2).
  { unfold Blockfrost_getUtxos.
    rewrite (getPaymentCredential_resolves sdk a1 addr1 c1) by done.
    rewrite (getPaymentCredential_resolves sdk a2 addr2 c2) by done.
    by rewrite Hhash. }
  split; [done|]. unfold Blockfrost_getRewardAccounts. by rewrite E.
Qed.

(** X18. What [getUtxos] returns matches the provider's list entry by entry:
    the same address, transaction hash and output index in the same order,
    and for coins the number read from the first [lovelace] amount. *)
Theorem Blockfrost_getUtxos_entrywise sdk api address utxos :
  Blockfrost_getUtxos sdk api address = Ok utxos ->
  exists vkh entries,
    getPaymentCredential sdk address = Ok vkh
    /\ Blockfrost.addressesUtxos api vkh = Ok entries
    /\ map walletOutput utxos = map providerOutput entries
    /\ Forall2 (fun entry utxo =>
                  exists amount,
                    lovelaceEntry (Blockfrost.amount entry) = Some amount
                    /\ BigInt sdk (Blockfrost.quantity amount)
                       = Ok (Cardano.coins (Utxo.value utxo)))
               entries utxos.
Proof.
  unfold Blockfrost_getUtxos.
  destruct (getPaymentCredential sdk address) as [vkh|]; simpl; [|done].
  destruct (Blockfrost.addressesUtxos api vkh) as [entries|] eqn:Hentries; simpl; [|done].
  intros H. apply map_result_Ok in H. exists vkh, entries. split_and!; try done.
  - clear Hentries. induction H as [|entry utxo entries utxos Hu _ IH]; simpl; [done|].
    apply toUtxo_Ok in Hu as [-> _]. by rewrite IH.
  - eapply Forall2_impl; [exact H|]. intros entry utxo Hu. by apply toUtxo_Ok in Hu as [_ ?].
Qed.

(** X19. [getUtxos] rejects when any of the provider's outputs carries no
    [lovelace] amount. *)
Theorem Blockfrost_getUtxos_rejects_without_lovelace sdk api address vkh entries entry :
  getPaymentCredential sdk address = Ok vkh ->
  Blockfrost.addressesUtxos api vkh = Ok entries ->
  entry ∈ entries ->
  lovelaceEntry (Blockfrost.amount entry) = None ->
  exists e, Blockfrost_getUtxos sdk api address = Err e.
Proof.
  intros Hvkh Hentries Hin Hnone. unfold Blockfrost_getUtxos. rewrite Hvkh. simpl.
  rewrite Hentries. simpl.
  apply (map_result_Err (toUtxo sdk) entries entry (TypeError "find(...).quantity")); [done|].
  unfold toUtxo. unfold lovelaceEntry in Hnone. by rewrite Hnone.
Qed.

(** X20. The reward accounts [getRewardAccounts] returns are pairwise
    distinct, and they are exactly the staking credentials, under the
    adapter's network id, of the addresses that hold the outputs [getUtxos]
    returns. *)
Theorem Blockfrost_getRewardAccounts_distinct sdk api isTestnet address rewardAccounts :
  Blockfrost_getRewardAccounts sdk api isTestnet address = Ok rewardAccounts ->
  NoDup rewardAccounts
  /\ exists utxos,
       Blockfrost_getUtxos sdk api address = Ok utxos
       /\ forall r,
            r ∈ rewardAccounts <->
            exists utxo,
              utxo ∈ utxos
              /\ getStakingCredential sdk (Utxo.address utxo) (if isTestnet then 0 else 1)
                 = Ok (Some r).
Proof.
  unfold Blockfrost_getRewardAccounts, _networkId.
  destruct (Blockfrost_getUtxos sdk api address) as [utxos|]; simpl; [|done].
  destruct (map_result _ utxos) as [credentials|] eqn:Hmap; simpl; [|done].
  intros H. simplify_eq. destruct (of_array_spec (omap id credentials)) as [Hnd Hin].
  split; [done|]. exists utxos. split; [done|]. intros r.
  rewrite Hin, list_elem_of_omap. apply map_result_Ok in Hmap. split.
  - intros (o & Ho & Hid). simpl in Hid. subst o.
    apply list_elem_of_lookup in Ho as [i Hi].
    destruct (Forall2_lookup_r _ _ _ _ _ Hmap Hi) as (utxo & Hu & Hcred).
    exists utxo. split; [|done]. apply list_elem_of_lookup. by exists i.
  - intros (utxo & Hu & Hcred). exists (Some r). split; [|done].
    apply list_elem_of_lookup in Hu as [i Hi].
    destruct (Forall2_lookup_l _ _ _ _ _ Hmap Hi) as (o & Ho & Hcred').
    apply list_elem_of_lookup. exists i. congruence.
Qed.

(** X21. The info [getRewardAccountInfo] returns for a reward account carries
    that reward account as its staking credential, the provider's
    withdrawable and controlled amounts as rewards and staked amount, and the
    provider's pool id. *)
Theorem Blockfrost_getRewardAccountInfo_fields sdk api rewardAccount info :
  Blockfrost_getRewardAccountInfo sdk api rewardAccount = Ok (Some info) ->
  RewardAccountInfo.stakingCredential info = rewardAccount
  /\ exists account,
       Blockfrost.accounts api rewardAccount = Ok account
       /\ BigInt sdk (Blockfrost.withdrawable_amount account)
          = Ok (RewardAccountInfo.rewards info)
       /\ BigInt sdk (Blockfrost.controlled_amount account)
          = Ok (RewardAccountInfo.stakedAmount info)
       /\ RewardAccountInfo.poolId info = Blockfrost.pool_id account.
Proof. apply getRewardAccountInfo_Some. Qed.

(** X22. [getRewardAccountInfo] answers absent exactly when the provider's
    request fails; an amount that is not a number is outside the [try] and
    makes the lookup reject. *)
Theorem Blockfrost_getRewardAccountInfo_absent_iff sdk api rewardAccount :
  (Blockfrost_getRewardAccountInfo sdk api rewardAccount = Ok None
   <-> exists e, Blockfrost.accounts api rewardAccount = Err e)
  /\ forall account e,
       Blockfrost.accounts api rewardAccount = Ok account ->
       BigInt sdk (Blockfrost.withdrawable_amount account) = Err e ->
       Blockfrost_getRewardAccountInfo sdk api rewardAccount = Err e.
Proof.
  unfold Blockfrost_getRewardAccountInfo.
  destruct (Blockfrost.accounts api rewardAccount) as [account|e0]; split.
  - split; [|by intros [e ?]].
    destruct (BigInt sdk (Blockfrost.withdrawable_amount account)); simpl; [|done].
    by destruct (BigInt sdk (Blockfrost.controlled_amount account)).
  - intros ? e [= <-] ->. done.
  - split; [by eexists|done].
  - done.
Qed.

(** X23. [getAddresses] never rejects: a failed request gives the empty list,
    a successful one the addresses of the provider's entries in their order. *)
Theorem Blockfrost_getAddresses_never_rejects api stakeCredential :
  exists addresses,
    Blockfrost_getAddresses api stakeCredential = Ok addresses
    /\ ((exists e, Blockfrost.accountsAddresses api stakeCredential = Err e)
        -> addresses = [])
    /\ forall entries,
         Blockfrost.accountsAddresses api stakeCredential = Ok entries ->
         addresses = map Blockfrost.account_address entries.
Proof.
  unfold Blockfrost_getAddresses.
  destruct (Blockfrost.accountsAddresses api stakeCredential) as [entries|e];
    eexists; split_and!; try done.
  - by intros [e ?].
  - intros ? [= <-]. done.
Qed.

(** ** Discovery over the Blockfrost adapter *)

Lemma omap_keyed {A} (f : string -> option A) (key : A -> string) (l : list string) :
  (forall r x, f r = Some x -> key x = r) ->
  NoDup l ->
  NoDup (map key (omap f l)) /\ forall k, k ∈ map key (omap f l) -> k ∈ l.
Proof.
  intros Hkey. induction 1 as [|r l Hnot Hnd [IHnd IHin]]; simpl.
  - split; [constructor|done].
  - destruct (f r) as [x|] eqn:Hx; simpl.
    + rewrite (Hkey _ _ Hx). split.
      * constructor; [|done]. intros Hin. by apply Hnot, IHin.
      * intros k [->|Hk]%elem_of_cons; apply elem_of_cons; [by left|right; by apply IHin].
    + split; [done|]. intros k Hk. apply elem_of_cons. right. by apply IHin.
Qed.

(** X24. Over the Blockfrost adapter, without a monitor, a seed that does not
    decode rejects the discovery with the decoder's exception. *)
Theorem discover_Blockfrost_undecodable_seed {St} sdk api isTestnet fuel seed (s : St) :
  fromBech32 sdk seed = None ->
  ClusteredWallet.discover sdk (BlockfrostBlockchainDataSource sdk api isTestnet)
    None (S fuel) seed s
  = Throw (InvalidAddress seed).
Proof.
  intros Hdec. unfold ClusteredWallet.discover, bind, notify. cbv zeta.
  pose proof (loop_seed_rejects (BlockfrostBlockchainDataSource sdk api isTestnet)
                fuel seed (InvalidAddress seed) s) as Hloop.
  unfold seeded in Hloop. rewrite Hloop; [done|]. simpl.
  apply Blockfrost_getRewardAccounts_passes_failure.
  by apply Blockfrost_getUtxos_raises_on_undecodable.
Qed.

(** X25. Over the Blockfrost adapter, the reward-account infos of the wallet
    have pairwise distinct staking credentials, each of them a reward account
    the adapter names for the seed. *)
Theorem discover_Blockfrost_reward_accounts_distinct {St} sdk api isTestnet
    (mon : option (ProgressMonitor St)) fuel seed s w s' :
  ClusteredWallet.discover sdk (BlockfrostBlockchainDataSource sdk api isTestnet)
    mon fuel seed s = Done (w, s') ->
  NoDup (map RewardAccountInfo.stakingCredential (ClusteredWallet.getRewardAccounts w))
  /\ exists ras,
       Blockfrost_getRewardAccounts sdk api isTestnet seed = Ok ras
       /\ forall c,
            c ∈ map RewardAccountInfo.stakingCredential
                  (ClusteredWallet.getRewardAccounts w) ->
            c ∈ ras.
Proof.
  intros H. apply discover_sets_exact in H as (ras & Hras & _ & ->). simpl in Hras.
  destruct (of_array_spec ras) as [Hnd Hin].
  destruct (omap_keyed (retained (BlockfrostBlockchainDataSource sdk api isTestnet))
              RewardAccountInfo.stakingCredential (JsSet.of_array ras)) as [Hd Hsub];
    [|done|].
  - intros r info Hret. unfold retained in Hret. simpl in Hret.
    destruct (Blockfrost_getRewardAccountInfo sdk api r) as [[i|]|] eqn:Hinfo;
      simplify_eq. by apply getRewardAccountInfo_Some in Hinfo as [? _].
  - split; [done|]. exists ras. split; [done|]. intros c Hc. by apply Hin, Hsub.
Qed.

(** ** Instances of the further properties *)

Lemma insertRangeInSet_extends_witness :
  NoDup ["a"]
  /\ ClusteredWallet._insertRangeInSet ["b"; "a"; "b"; "c"] ["a"] = ["a"; "b"; "c"]
  /\ NoDup (ClusteredWallet._insertRangeInSet ["b"; "a"; "b"; "c"] ["a"]).
Proof.
  assert (H : NoDup ["a"]) by (apply NoDup_singleton).
  split; [exact H|]. split; [reflexivity|].
  exact (proj1 (proj2 (insertRangeInSet_extends ["b"; "a"; "b"; "c"] ["a"] H))).
Defined.

Lemma popFromSet_removes_first_witness :
  exists value rest,
    ["x"; "y"] = value :: rest
    /\ ClusteredWallet._popFromSet ["x"; "y"] = (Some value, rest)
    /\ (value ∉ rest)
    /\ JsSet.size ["x"; "y"] = S (JsSet.size rest).
Proof.
  apply (popFromSet_removes_first ["x"; "y"]).
  - apply (bool_decide_unpack _). reflexivity.
  - simpl. lia.
Defined.


Lemma discover_addresses_distinct_witness :
  exists w,
    ClusteredWallet.discover demoSdk overlapping noMonitor 10 "addr_S" tt = Done (w, tt)
    /\ NoDup (map AddressInfo.address (ClusteredWallet.getAddresses w)).
Proof.
  eexists. split; [vm_compute; reflexivity|].
  eapply (discover_addresses_distinct demoSdk overlapping noMonitor 10 "addr_S" tt).
  vm_compute; reflexivity.
Defined.

Lemma discover_infos_resolved_witness :
  exists w,
    ClusteredWallet.discover demoSdk overlapping noMonitor 10 "addr_S" tt = Done (w, tt)
    /\ Forall (resolvedInfo demoSdk overlapping) (ClusteredWallet.getAddresses w).
Proof.
  eexists. split; [vm_compute; reflexivity|].
  eapply (discover_infos_resolved demoSdk overlapping noMonitor 10 "addr_S" tt).
  vm_compute; reflexivity.
Defined.

Lemma discover_addresses_reachable_witness :
  exists w,
    ClusteredWallet.discover demoSdk overlapping noMonitor 10 "addr_S" tt = Done (w, tt)
    /\ "ent_V" ∈ map AddressInfo.address (ClusteredWallet.getAddresses w)
    /\ link overlapping "addr_S" "ent_V" /\ reachable overlapping "addr_S" "ent_V".
Proof.
  eexists. split; [vm_compute; reflexivity|].
  assert (Hin : "ent_V" ∈ ["addr_S"; "addr_T"; "ent_V"])
    by (apply (bool_decide_unpack _); reflexivity).
  split; [exact Hin|].
  eapply (discover_addresses_reachable demoSdk overlapping noMonitor 10 "addr_S" tt).
  - vm_compute; reflexivity.
  - exact Hin.
Defined.

Lemma discover_ends_within_bound_witness :
  (fuelBound overlapping "addr_S" <= 6)%nat
  /\ ((exists w s',
         ClusteredWallet.discover demoSdk overlapping noMonitor 6 "addr_S" tt = Done (w, s'))
      \/ (exists e,
            ClusteredWallet.discover demoSdk overlapping noMonitor 6 "addr_S" tt = Throw e)).
Proof.
  assert (H : (fuelBound overlapping "addr_S" <= 6)%nat) by (vm_compute; lia).
  split; [exact H|].
  exact (discover_ends_within_bound demoSdk overlapping noMonitor 6 "addr_S" tt H).
Defined.

Lemma discover_rejects_unresolvable_address_witness :
  link listsRewardAddress "addr_S" "stake_K1"
  /\ getPaymentCredential demoSdk "stake_K1" = Err (TypeError "paymentCredential.hash")
  /\ exists e,
       ClusteredWallet.discover demoSdk listsRewardAddress noMonitor 4 "addr_S" tt
       = Throw e.
Proof.
  assert (Hlink : link listsRewardAddress "addr_S" "stake_K1").
  { exists ["stake_K1"], "stake_K1", ["addr_S"; "stake_K1"].
    split_and!; try reflexivity; apply (bool_decide_unpack _); reflexivity. }
  split; [exact Hlink|]. split; [reflexivity|].
  apply (discover_rejects_unresolvable_address demoSdk listsRewardAddress noMonitor 4
           "addr_S" tt "stake_K1" (TypeError "paymentCredential.hash")).
  - vm_compute; lia.
  - exact Hlink.
  - reflexivity.
Defined.

Lemma discover_rejects_with_seed_lookup_witness :
  ClusteredWallet.discover demoSdk rejectingSource noMonitor 1 "addr_S" tt
  = Throw (ProviderError "503").
Proof.
  apply (discover_rejects_with_seed_lookup demoSdk rejectingSource 0 "addr_S" tt).
  reflexivity.
Defined.

Lemma discover_seed_without_reward_accounts_witness :
  exists w,
    ClusteredWallet.discover demoSdk unstakedSeed None 1 "ent_S" tt = Done (w, tt)
    /\ ClusteredWallet.getAddresses w = []
    /\ ClusteredWallet.getUTXOs w = []
    /\ ClusteredWallet.getRewardAccounts w = []
    /\ ClusteredWallet.getBalance w = zeroValue
    /\ ClusteredWallet.getRewards w = 0.
Proof.
  apply (discover_seed_without_reward_accounts demoSdk unstakedSeed 0 "ent_S" tt).
  reflexivity.
Defined.

Lemma discover_console_lines_witness :
  exists w console',
    ClusteredWallet.discover demoSdk overlapping (Some consoleProgressMonitor) 10
      "addr_S" []
    = Done (w, console')
    /\ ClusteredWallet.discover demoSdk overlapping noMonitor 10 "addr_S" tt = Done (w, tt)
    /\ console'
       = ["Starting cluster discovery from seed addr_S.";
          "Getting reward accounts for addr_S.";
          "Searching stake_K1 for new addresses...";
          "Found 2 new addresses.";
          "Searching stake_K2 for new addresses...";
          "Found 1 new addresses.";
          "Cluster discovery complete."].
Proof.
  eexists. eexists. split; [vm_compute; reflexivity|]. split; [|reflexivity].
  eapply (discover_console_lines demoSdk overlapping 10 "addr_S" []).
  vm_compute; reflexivity.
Defined.

Lemma discover_utxos_first_fetched_witness :
  exists w,
    ClusteredWallet.discover demoSdk overlapping noMonitor 10 "addr_S" tt = Done (w, tt)
    /\ forall u, u ∈ ClusteredWallet.getUTXOs w ->
         exists pre post,
           concat (map AddressInfo.utxos (ClusteredWallet.getAddresses w))
           = pre ++ u :: post
           /\ Utxo.key u ∉ map Utxo.key pre.
Proof.
  eexists. split; [vm_compute; reflexivity|].
  eapply (discover_utxos_first_fetched demoSdk overlapping noMonitor 10 "addr_S" tt).
  vm_compute; reflexivity.
Defined.

Lemma discover_balance_sums_addresses_witness :
  exists w,
    ClusteredWallet.discover demoSdk sharedStake noMonitor 10 "addr_S" tt = Done (w, tt)
    /\ Cardano.coins (ClusteredWallet.getBalance w)
       = Zsum (map (fun info => Cardano.coins (AddressInfo.balance info))
                   (ClusteredWallet.getAddresses w))
    /\ map (fun info => Cardano.coins (AddressInfo.balance info))
           (ClusteredWallet.getAddresses w) = [600; 400].
Proof.
  eexists. split; [vm_compute; reflexivity|]. split; [|reflexivity].
  eapply (discover_balance_sums_addresses demoSdk sharedStake noMonitor 10 "addr_S" tt).
  - vm_compute; reflexivity.
  - apply (bool_decide_unpack _). vm_compute. reflexivity.
Defined.

Lemma getPaymentCredential_only_hash_witness :
  exists credential,
    getPaymentCredential demoBook "addr_P1_S1" = Ok credential
    /\ getPaymentCredential demoBook "script_P1" = Ok credential.
Proof.
  apply (getPaymentCredential_only_hash demoBook "addr_P1_S1" "script_P1"
           (baseAddress (keyHash "P1") (keyHash "S1"))
           (enterpriseAddress (scriptHash "P1"))
           (keyHash "P1") (scriptHash "P1")); reflexivity.
Defined.

Lemma getStakingCredential_follows_payment_witness :
  getPaymentCredential demoBook "addr_P1_S1" = Ok "addr_vkh1P1"
  /\ getStakingCredential demoBook "addr_P1_S1" 0 = Ok (Some "stake_test1S1")
  /\ getStakingCredential demoBook "ent_P1" 0 = Ok None.
Proof.
  split; [reflexivity|].
  destruct (getStakingCredential_follows_payment demoBook "addr_P1_S1" 0 "addr_vkh1P1")
    as (addr & Hdec & Hstake); [reflexivity|].
  vm_compute in Hdec. simplify_eq. split; [exact Hstake|reflexivity].
Defined.

Lemma Blockfrost_lookups_by_payment_hash_witness :
  Blockfrost_getUtxos demoBook demoApi "addr_P1_S2"
  = Blockfrost_getUtxos demoBook demoApi "script_P1"
  /\ Blockfrost_getRewardAccounts demoBook demoApi true "addr_P1_S2"
     = Blockfrost_getRewardAccounts demoBook demoApi true "script_P1".
Proof.
  apply (Blockfrost_lookups_by_payment_hash demoBook demoApi true
           "addr_P1_S2" "script_P1"
           (baseAddress (keyHash "P1") (keyHash "S2"))
           (enterpriseAddress (scriptHash "P1"))
           (keyHash "P1") (scriptHash "P1")); reflexivity.
Defined.

Lemma Blockfrost_getUtxos_entrywise_witness :
  exists utxos,
    Blockfrost_getUtxos demoBook demoApi "ent_P1" = Ok utxos
    /\ map walletOutput utxos
       = [("addr_P1_S1", "tx1", 0); ("addr_P1_S2", "tx2", 0);
          ("ent_P1", "tx3", 1); ("addr_P1_S1", "tx4", 0)]
    /\ exists vkh entries,
         getPaymentCredential demoBook "ent_P1" = Ok vkh
         /\ Blockfrost.addressesUtxos demoApi vkh = Ok entries
         /\ map walletOutput utxos = map providerOutput entries.
Proof.
  eexists. split; [vm_compute; reflexivity|]. split; [reflexivity|].
  destruct (Blockfrost_getUtxos_entrywise demoBook demoApi "ent_P1" _ eq_refl)
    as (vkh & entries & H1 & H2 & H3 & _).
  by exists vkh, entries.
Defined.

Lemma Blockfrost_getUtxos_rejects_without_lovelace_witness :
  exists e, Blockfrost_getUtxos demoBook noLovelaceApi "ent_P1" = Err e.
Proof.
  apply (Blockfrost_getUtxos_rejects_without_lovelace demoBook noLovelaceApi "ent_P1"
           "addr_vkh1P1"
           [providerUtxo "addr_P1_S1" "tx1" 0 [("lovelace", "600")];
            providerUtxo "addr_P1_S1" "tx2" 0 [("asset1", "3")]]
           (providerUtxo "addr_P1_S1" "tx2" 0 [("asset1", "3")])).
  - reflexivity.
  - reflexivity.
  - apply elem_of_cons. right. apply elem_of_cons. by left.
  - reflexivity.
Defined.

Lemma Blockfrost_getRewardAccounts_distinct_witness :
  Blockfrost_getRewardAccounts demoBook demoApi true "ent_P1"
  = Ok ["stake_test1S1"; "stake_test1S2"]
  /\ NoDup ["stake_test1S1"; "stake_test1S2"].
Proof.
  assert (H : Blockfrost_getRewardAccounts demoBook demoApi true "ent_P1"
              = Ok ["stake_test1S1"; "stake_test1S2"]) by (vm_compute; reflexivity).
  split; [exact H|].
  exact (proj1 (Blockfrost_getRewardAccounts_distinct demoBook demoApi true "ent_P1" _ H)).
Defined.

Lemma Blockfrost_getRewardAccountInfo_fields_witness :
  exists info,
    Blockfrost_getRewardAccountInfo demoBook demoApi "stake_test1S1" = Ok (Some info)
    /\ RewardAccountInfo.stakingCredential info = "stake_test1S1"
    /\ RewardAccountInfo.rewards info = 50.
Proof.
  eexists. split; [vm_compute; reflexivity|]. split; [|reflexivity].
  eapply (Blockfrost_getRewardAccountInfo_fields demoBook demoApi "stake_test1S1").
  vm_compute; reflexivity.
Defined.

Lemma discover_Blockfrost_undecodable_seed_witness :
  ClusteredWallet.discover demoBook (BlockfrostBlockchainDataSource demoBook demoApi true)
    noMonitor 1 "garbage" tt
  = Throw (InvalidAddress "garbage").
Proof.
  apply (discover_Blockfrost_undecodable_seed demoBook demoApi true 0 "garbage" tt).
  reflexivity.
Defined.

Lemma discover_Blockfrost_reward_accounts_distinct_witness :
  exists w,
    ClusteredWallet.discover demoBook (BlockfrostBlockchainDataSource demoBook demoApi true)
      noMonitor 10 "ent_P1" tt
    = Done (w, tt)
    /\ map RewardAccountInfo.stakingCredential (ClusteredWallet.getRewardAccounts w)
       = ["stake_test1S1"; "stake_test1S2"]
    /\ NoDup (map RewardAccountInfo.stakingCredential (ClusteredWallet.getRewardAccounts w)).
Proof.
  eexists. split; [vm_compute; reflexivity|]. split; [reflexivity|].
  eapply (discover_Blockfrost_reward_accounts_distinct demoBook demoApi true noMonitor
            10 "ent_P1" tt).
  vm_compute; reflexivity.
Defined.

(** ** The command-line entry point *)

Lemma fold_left_add_map {A} (f : A -> Z) (l : list A) : forall acc,
  fold_left (fun a b => a + b) (map f l) acc = fold_left (fun a x => a + f x) l acc.
Proof. induction l as [|x l IH]; intros acc; simpl; [done|apply IH]. Qed.

(** X26. The rewards total that [run] recomputes from the reward accounts of a
    discovered wallet is the wallet's own [getRewards], so the total value it
    prints is the balance's coins plus [getRewards]. *)
Theorem run_rewards_agree {St} sdk ds (mon : option (ProgressMonitor St))
    fuel seed s w s' :
  ClusteredWallet.discover sdk ds mon fuel seed s = Done (w, s') ->
  runRewards w = ClusteredWallet.getRewards w.
Proof.
  intros H.
  apply discover_Done in H as (st & s1 & s2 & infos & _ & _ & _ & _ & _ & ->).
  unfold runRewards, ClusteredWallet.getRewards, ClusteredWallet.getRewardAccounts.
  simpl. apply fold_left_add_map.
Qed.

Lemma run_rewards_agree_witness :
  exists w,
    ClusteredWallet.discover demoSdk sharedStake noMonitor 10 "addr_S" tt = Done (w, tt)
    /\ runRewards w = ClusteredWallet.getRewards w
    /\ runRewards w = 50.
Proof.
  eexists. split; [vm_compute; reflexivity|]. split; [|reflexivity].
  eapply (run_rewards_agree demoSdk sharedStake noMonitor 10 "addr_S" tt).
  vm_compute; reflexivity.
Defined.
